(** * Rush command layer: a shallow embedding

    The development follows three TypeScript classes of the `rush` tool,

    - [GenerateAction]        (apps/rush/src/actions/GenerateAction.ts),
    - [UnlinkAction]          (the action behind "rush unlink"),
    - [RushCommandLineParser] (apps/rush/src/actions/RushCommandLineParser.ts),

    each in the module of its name, and the approved-packages schema of
    [rush-lib] (module [ApprovedPackages]).

    Side effects are made explicit: a [World] holds the file system, the
    process environment and the trace of observable events, and every method
    is a function from worlds to a completion and a new world.  Classes the
    three sources call but that are not among them ([InstallManager],
    [LinkManager], [Telemetry], the package manager behind
    [Utilities.executeCommand]) enter as collaborators: records of
    file-system actions about which a statement assumes only what it says.

    Part I is the model, Part II and Part III the properties; the last
    section of each runs its statements on a small repository. *)

From Stdlib Require Import ZArith Lia OrderedTypeEx.
From stdpp Require Import base option gmap strings list.

(* ================================================================== *)
(** * Part I: the model                                                *)
(* ================================================================== *)

(** ** JavaScript values used by the command layer *)

Module Js.

(** An [Error] object: the two properties the command layer reads. *)
Record Error := mkError { message : string; stack : string }.

(** [new Error(msg)]; the stack starts with the error's own line. *)
Definition newError (msg : string) : Error :=
  {| message := msg; stack := "Error: " +:+ msg |}.

(** How a statement list finishes: it runs to its end, an exception
    escapes it, or [process.exit] stopped the process. *)
Inductive Completion (A : Type) : Type :=
| Return (a : A)
| Throw (e : Error)
| Exit (code : Z).
Arguments Return {A} a.
Arguments Throw {A} e.
Arguments Exit {A} code.

(** A promise, by the state it settles in.  The work behind a promise is
    taken to have run when the promise is handed over; a handler
    registered on it runs later, once the script has run to its end (see
    [Node.runToEnd]). *)
Inductive Promise := Fulfilled | Rejected (e : Error) | Pending.

End Js.
Export Js.

(** ** The file system, as [fs-extra] shows it *)

Module Fs.

Inductive Node :=
| File (data : string) (mtime : nat)
| Folder (mtime : nat).

Definition node_mtime (n : Node) : nat :=
  match n with File _ t => t | Folder t => t end.

(** Paths are compared as written; [now] is the clock that stamps a write. *)
Record FileSystem := mkFs { entries : gmap string Node; now : nat }.

(** A file-system action that may throw. *)
Definition Effect (A : Type) : Type := FileSystem -> (Error + A) * FileSystem.

Definition existsSync (p : string) (fs : FileSystem) : bool :=
  match entries fs !! p with Some _ => true | None => false end.

Definition unlinkSync (p : string) : Effect unit := fun fs =>
  match entries fs !! p with
  | Some (File _ _) =>
      (inr tt, {| entries := delete p (entries fs); now := S (now fs) |})
  | Some (Folder _) =>
      (inl (newError ("EISDIR: illegal operation on a directory, unlink '" +:+ p +:+ "'")), fs)
  | None =>
      (inl (newError ("ENOENT: no such file or directory, unlink '" +:+ p +:+ "'")), fs)
  end.

Definition writeFileSync (p data : string) : Effect unit := fun fs =>
  match entries fs !! p with
  | Some (Folder _) =>
      (inl (newError ("EISDIR: illegal operation on a directory, open '" +:+ p +:+ "'")), fs)
  | _ =>
      (inr tt, {| entries := <[p := File data (now fs)]> (entries fs);
                  now := S (now fs) |})
  end.

(** No entry carries a time stamp from the future. *)
Definition wf (fs : FileSystem) : Prop :=
  forall p n, entries fs !! p = Some n -> node_mtime n <= now fs.

(** An action that keeps the clock discipline: time does not run backwards
    and no stamp is set ahead of the clock. *)
Definition Timely {A} (c : Effect A) : Prop :=
  forall fs, wf fs -> wf (c fs).2.

(** An action that leaves the entry at [p] as it found it. *)
Definition Preserves {A} (p : string) (c : Effect A) : Prop :=
  forall fs, entries (c fs).2 !! p = entries fs !! p.

End Fs.
Export Fs.

(** ** Observable events *)

Module InstallType.
(** [InstallType] of [InstallManager]: the two members the command uses. *)
Inductive t := Normal | ForceClean.
End InstallType.

Inductive Event :=
| ConsoleLog (text : string)
| ConsoleError (text : string)
| FsUnlink (path : string)
| FsWriteFile (path data : string)
| RewriteConfigFiles
| EnsureLocalNpmTool (forceReinstall : bool)
| CreateTempModules
| InstallCommonModules (installType : InstallType.t)
| ExecuteCommand (command : string) (args : list string) (workingDirectory : string)
| SyncFile (sourcePath destinationPath : string)
| CreateSymlinksForProjects (force : bool)
| DeleteFile (filePath : string)
| DangerouslyDeletePath (folderPath : string)
| TelemetryFlush
| PromiseCatch (promise : Promise)
| ProcessExit (code : Z).

(** ** Worlds and the command monad *)

Record World := mkWorld {
  fs : FileSystem;
  env : gmap string string;      (* process.env *)
  trace : list Event             (* oldest event first *)
}.

Definition M (A : Type) : Type := World -> Completion A * World.

Definition ret {A} (a : A) : M A := fun w => (Return a, w).

Definition bind {A B} (m : M A) (k : A -> M B) : M B := fun w =>
  match m w with
  | (Return a, w') => k a w'
  | (Throw e, w') => (Throw e, w')
  | (Exit c, w') => (Exit c, w')
  end.

Declare Scope js_scope.
Delimit Scope js_scope with js.
Notation "'let*' x ':=' m 'in' k" := (bind m (fun x => k))
  (at level 10, x name, m at level 100, k at level 200) : js_scope.
Notation "m1 ';;' m2" := (bind m1 (fun _ => m2))
  (at level 100, m2 at level 200, right associativity) : js_scope.
Bind Scope js_scope with M.
Local Open Scope js_scope.

Definition emit (e : Event) : M unit := fun w =>
  (Return tt, {| fs := fs w; env := env w; trace := trace w ++ [e] |}).

Definition throw {A} (e : Error) : M A := fun w => (Throw e, w).

(** Run a file-system action in the world; a thrown error becomes a throw
    completion. *)
Definition liftFs {A} (c : Effect A) : M A := fun w =>
  match c (fs w) with
  | (inr a, fs') => (Return a, {| fs := fs'; env := env w; trace := trace w |})
  | (inl e, fs') => (Throw e, {| fs := fs'; env := env w; trace := trace w |})
  end.

(** A call the trace records, then runs. *)
Definition call {A} (e : Event) (c : Effect A) : M A := emit e ;; liftFs c.

(** [try { m } catch (error) { h error }] *)
Definition try_catch {A} (m : M A) (h : Error -> M A) : M A := fun w =>
  match m w with
  | (Throw e, w') => h e w'
  | r => r
  end.

(** [try { m } finally { f }]: [f] runs whether [m] returned or threw, and an
    abrupt end of [f] replaces the completion of [m].  A process that has
    exited runs nothing more. *)
Definition try_finally {A} (m : M A) (f : M unit) : M A := fun w =>
  match m w with
  | (Exit c, w') => (Exit c, w')
  | (r, w') =>
      match f w' with
      | (Return _, w'') => (r, w'')
      | (Throw e, w'') => (Throw e, w'')
      | (Exit c, w'') => (Exit c, w'')
      end
  end.

Module console.
Definition log (s : string) : M unit := emit (ConsoleLog s).
Definition error (s : string) : M unit := emit (ConsoleError s).
End console.

Module process.
(** [process.exit(code)] *)
Definition exit {A} (code : Z) : M A := fun w =>
  (Exit code, {| fs := fs w; env := env w; trace := trace w ++ [ProcessExit code] |}).
End process.

Module fsx.
Definition existsSync (p : string) : M bool := fun w =>
  (Return (Fs.existsSync p (fs w)), w).
Definition unlinkSync (p : string) : M unit :=
  call (FsUnlink p) (Fs.unlinkSync p).
Definition writeFileSync (p data : string) : M unit :=
  call (FsWriteFile p data) (Fs.writeFileSync p data).
End fsx.

(** ** The platform: Node.js and the npm libraries the sources import

    [os], [path], [colors], [wordwrap] and the terminal are outside the
    repository; their functions are taken as they come. *)

Record Platform := {
  os_EOL : string;
  path_sep : string;
  path_delimiter : string;
  path_join : list string -> string;
  colors_red : string -> string;
  colors_green : string -> string;
  colors_bold : string -> string;
  wordwrap_soft : nat -> nat -> string -> string;
  String_trim : string -> string;
  (* Utilities.getConsoleWidth(): the width of the attached terminal *)
  getConsoleWidth : nat;
  (* Stopwatch.toString() once stopped: the elapsed time, as text *)
  stopwatch_toString : string
}.

(** The double-quote character, for the messages that quote a command. *)
Definition dq : string := String (Ascii.ascii_of_nat 34) EmptyString.

(** ** [RushConfiguration]: the fields the three sources read *)

Record RushConfigurationProject := { projectFolder : string }.

Record RushConfiguration := {
  committedShrinkwrapFilename : string;
  tempShrinkwrapFilename : string;
  npmToolFilename : string;
  commonTempFolder : string;
  rushLinkJsonFilename : string;
  projects : list RushConfigurationProject
}.

(** ** [Utilities] of rush-lib *)

Module Utilities.

(** Modelled from the spec: [Utilities.deleteFile] is not among the
    sources.  Its caller documents it ("Delete the flag file if it
    exists") and the spec has unlinking "remove ... the fingerprint
    markers": the entry is removed when there is one, and nothing happens
    otherwise. *)
Definition deleteFile (filePath : string) : Effect unit := fun fs =>
  match entries fs !! filePath with
  | Some _ =>
      (inr tt, {| entries := delete filePath (entries fs); now := S (now fs) |})
  | None => (inr tt, fs)
  end.

(** [q] is [folder] itself or lies below it. *)
Definition beneath (P : Platform) (folder q : string) : bool :=
  String.eqb q folder || String.prefix (folder +:+ path_sep P) q.

(** Modelled from the spec: [Utilities.dangerouslyDeletePath] is not among
    the sources.  The spec has unlinking "remove every link entry": the
    folder goes with everything below it. *)
Definition dangerouslyDeletePath (P : Platform) (folderPath : string) : Effect unit :=
  fun fs =>
    (inr tt,
     {| entries := filter (fun kv => beneath P folderPath kv.1 = false) (entries fs);
        now := S (now fs) |}).

End Utilities.

(** ** [UnlinkAction] *)

Module UnlinkAction.

(** The loop of [onExecute] over [this._rushConfiguration.projects];
    [didAnything] is the loop's flag. *)
Fixpoint purgeProjects (P : Platform) (ps : list RushConfigurationProject)
    (didAnything : bool) : M bool :=
  match ps with
  | [] => ret didAnything
  | rushProject :: rest =>
      let localModuleFolder := path_join P [projectFolder rushProject; "node_modules"] in
      let* present := fsx.existsSync localModuleFolder in
      if (present : bool) then
        console.log ("Purging " +:+ localModuleFolder) ;;
        call (DangerouslyDeletePath localModuleFolder)
             (Utilities.dangerouslyDeletePath P localModuleFolder) ;;
        purgeProjects P rest true
      else purgeProjects P rest didAnything
  end.

Definition onExecute (P : Platform) (cfg : RushConfiguration) : M unit :=
  console.log ("Starting " +:+ dq +:+ "rush unlink" +:+ dq +:+ os_EOL P) ;;
  (* Delete the flag file if it exists; this will ensure that
     a full "rush link" is required next time *)
  call (DeleteFile (rushLinkJsonFilename cfg))
       (Utilities.deleteFile (rushLinkJsonFilename cfg)) ;;
  let* didAnything := purgeProjects P (projects cfg) false in
  if negb didAnything then console.log "Nothing to do."
  else console.log (os_EOL P +:+ "Done.").

End UnlinkAction.

(** ** [RushCommandLineParser] *)

Module RushCommandLineParser.

(** The parser object: its fields, and the collaborator behind
    [this.telemetry].  [Telemetry.flush] writes its records to a file. *)
Record t := {
  rushConfiguration : RushConfiguration;
  telemetry_flush : Effect unit;
  debugParameter : bool            (* this._debugParameter.value *)
}.

Definition exitWithError (this : t) : M unit :=
  try_finally (call TelemetryFlush (telemetry_flush this))
              (process.exit 1).

Definition _exitAndReportError (P : Platform) (this : t) (error : Error) : M unit :=
  (if debugParameter this then
     (* If catchSyncErrors() called this, then show a call stack similar to
        what NodeJS would show for an uncaught error *)
     console.error (os_EOL P +:+ stack error)
   else
     let prefix := "ERROR: " in
     let wrap := wordwrap_soft P (String.length prefix) (getConsoleWidth P) in
     console.error (os_EOL P +:+ colors_red P (prefix +:+ String_trim P (wrap (message error))))) ;;
  exitWithError this.

(** The handler of [catchSyncErrors], lines 47-49:
    [(error: Error) => { this._exitAndReportError(error); }]. *)
Definition onRejected (P : Platform) (this : t) (error : Error) : M unit :=
  _exitAndReportError P this error.

(** [promise.catch(handler)] registers [onRejected P this] on the promise
    and returns; nothing of the handler runs inside the call. *)
Definition catchSyncErrors (P : Platform) (this : t) (promise : Promise) : M unit :=
  emit (PromiseCatch promise).

(** [superOnExecute] is [super.onExecute()] of ts-command-line: it runs the
    action the command line selected. *)
Definition onExecute (P : Platform) (this : t) (superOnExecute : M unit) : M unit :=
  if debugParameter this then
    (* For debugging, don't catch any exceptions; show the full call stack *)
    superOnExecute ;;
    call TelemetryFlush (telemetry_flush this)
  else
    try_catch
      (superOnExecute ;;
       call TelemetryFlush (telemetry_flush this))
      (fun error => _exitAndReportError P this error).

(** [process.env['PATH']] read as JavaScript reads a missing property that
    is then concatenated to a string. *)
Definition getenv (name : string) (e : gmap string string) : string :=
  default "undefined" (e !! name).

Definition _ensureEnvironment (P : Platform) (this : t) : M unit := fun w =>
  let environmentPath := getenv "PATH" (env w) in
  let environmentPath :=
    path_join P [commonTempFolder (rushConfiguration this); "node_modules"; ".bin"]
    +:+ path_delimiter P +:+ environmentPath in
  (Return tt,
   {| fs := fs w; env := <["PATH" := environmentPath]> (env w); trace := trace w |}).

End RushCommandLineParser.

(** ** Node.js as the caller of the command layer *)

Module Node.

(** What the runtime does with the main script's completion: an exception
    nobody caught is printed with its stack on the error stream and the
    process ends with code 1; a script that runs to its end ends with 0. *)
Definition run (main : M unit) (w : World) : Z * World :=
  match main w with
  | (Return _, w') => (0%Z, w')
  | (Throw e, w') =>
      (1%Z, {| fs := fs w'; env := env w';
               trace := trace w' ++ [ConsoleError (stack e); ProcessExit 1] |})
  | (Exit c, w') => (c, w')
  end.

(** The errors of the rejected promises on which a handler was registered,
    oldest first. *)
Fixpoint caught (tr : list Event) : list Error :=
  match tr with
  | [] => []
  | PromiseCatch (Rejected e) :: rest => e :: caught rest
  | _ :: rest => caught rest
  end.

(** The runtime hands each rejection to the handler, one after the other.
    [process.exit] inside a handler ends the process; a handler that returns
    lets the runtime go on, and so does one that throws (its error only
    rejects the promise that [catch] returned, which nobody holds). *)
Fixpoint deliver (onRejected : Error -> M unit) (errors : list Error) : M unit :=
  fun w =>
    match errors with
    | [] => (Return tt, w)
    | e :: rest =>
        match onRejected e w with
        | (Exit c, w') => (Exit c, w')
        | (_, w') => deliver onRejected rest w'
        end
    end.

(** The script and, when it ran to its end, the rejections that are due:
    promise handlers run only after the synchronous part of the script. *)
Definition runToEnd (onRejected : Error -> M unit) (main : M unit) (w : World)
    : Z * World :=
  run (bind main (fun _ w' => deliver onRejected (caught (trace w')) w')) w.

End Node.

(** ** [InstallManager] and the other collaborators of [GenerateAction] *)

Module InstallManager.

(** The object [new InstallManager(rushConfiguration)]: the class is not
    among the sources and it drives the external package manager, so its
    methods are taken as they come. *)
Record t := {
  commonNodeModulesMarkerFilename : string;
  ensureLocalNpmTool : bool -> Effect unit;
  createTempModules : Effect unit;
  installCommonModules : InstallType.t -> Effect unit;
  (* pushes its arguments onto the array it is given *)
  pushConfigurationNpmArgs : list string -> list string
}.

(** Modelled from the spec: [InstallManager.syncFile] is not among the
    sources.  The spec has the full install copy "the result to the
    committed location (or deletes the committed file ...)" and the caller
    comments "Copy (or delete)": a source that exists is copied over the
    destination, which the copy stamps with the current time; with no
    source the destination is removed. *)
Definition syncFile (sourcePath destinationPath : string) : Effect unit := fun fs =>
  match entries fs !! sourcePath with
  | Some (File data _) =>
      match entries fs !! destinationPath with
      | Some (Folder _) =>
          (inl (newError ("EISDIR: illegal operation on a directory, open '"
                          +:+ destinationPath +:+ "'")), fs)
      | _ =>
          (inr tt, {| entries := <[destinationPath := File data (now fs)]> (entries fs);
                      now := S (now fs) |})
      end
  | Some (Folder _) =>
      (inl (newError ("EISDIR: illegal operation on a directory, read '"
                      +:+ sourcePath +:+ "'")), fs)
  | None =>
      match entries fs !! destinationPath with
      | Some _ =>
          (inr tt, {| entries := delete destinationPath (entries fs);
                      now := S (now fs) |})
      | None => (inr tt, fs)
      end
  end.

End InstallManager.

Module GenerateAction.

(** What [onExecute] calls outside its own class. *)
Record Collaborators := {
  (* ApprovedPackagesChecker.rewriteConfigFiles(rushConfiguration) *)
  rewriteConfigFiles : Effect unit;
  installManager : InstallManager.t;
  (* Utilities.executeCommand(command, args, workingDirectory) *)
  executeCommand : string -> list string -> string -> Effect unit;
  (* new LinkManager(rushConfiguration).createSymlinksForProjects(force) *)
  createSymlinksForProjects : bool -> Effect Promise
}.

Section Methods.
Variable P : Platform.
Variable parser : RushCommandLineParser.t.
Variable C : Collaborators.

Let cfg := RushCommandLineParser.rushConfiguration parser.
Let im := installManager C.

(** Lines 70-77: "Delete both copies of the shrinkwrap file". *)
Definition deleteShrinkwrapFiles : M unit :=
  (let* present := fsx.existsSync (committedShrinkwrapFilename cfg) in
   if (present : bool) then
     console.log (os_EOL P +:+ "Deleting " +:+ committedShrinkwrapFilename cfg) ;;
     fsx.unlinkSync (committedShrinkwrapFilename cfg)
   else ret tt) ;;
  (let* present := fsx.existsSync (tempShrinkwrapFilename cfg) in
   if (present : bool) then fsx.unlinkSync (tempShrinkwrapFilename cfg)
   else ret tt).

(** Lines 57-77: everything before the choice of the install mode. *)
Definition prepare : M unit :=
  call RewriteConfigFiles (rewriteConfigFiles C) ;;
  console.log ("Starting " +:+ dq +:+ "rush generate" +:+ dq +:+ os_EOL P) ;;
  call (EnsureLocalNpmTool false) (InstallManager.ensureLocalNpmTool im false) ;;
  call CreateTempModules (InstallManager.createTempModules im) ;;
  deleteShrinkwrapFiles.

(** Lines 80-87: the [isLazy] branch. *)
Definition lazyInstall : M unit :=
  console.log (colors_green P
    (os_EOL P +:+ "Rush is running in " +:+ dq +:+ "--lazy" +:+ dq +:+ " mode. "
     +:+ "You will need to run a normal " +:+ dq +:+ "rush generate" +:+ dq
     +:+ " before committing.")) ;;
  (* Do an incremental install *)
  call (InstallCommonModules InstallType.Normal)
       (InstallManager.installCommonModules im InstallType.Normal) ;;
  console.log (os_EOL P
    +:+ colors_bold P ("(Skipping " +:+ dq +:+ "npm shrinkwrap" +:+ dq +:+ ")")
    +:+ os_EOL P).

(** Lines 89-101: the clean install, "npm shrinkwrap", and the copy of
    its result to the committed location. *)
Definition fullInstall : M unit :=
  (* Do a clean install *)
  call (InstallCommonModules InstallType.ForceClean)
       (InstallManager.installCommonModules im InstallType.ForceClean) ;;
  console.log (os_EOL P
    +:+ colors_bold P ("Running " +:+ dq +:+ "npm shrinkwrap" +:+ dq +:+ "...")) ;;
  let npmArgs := InstallManager.pushConfigurationNpmArgs im ["shrinkwrap"] in
  call (ExecuteCommand (npmToolFilename cfg) npmArgs (commonTempFolder cfg))
       (executeCommand C (npmToolFilename cfg) npmArgs (commonTempFolder cfg)) ;;
  console.log (dq +:+ "npm shrinkwrap" +:+ dq +:+ " completed" +:+ os_EOL P) ;;
  (* Copy (or delete) common\temp\npm-shrinkwrap.json --> common\npm-shrinkwrap.json *)
  call (SyncFile (tempShrinkwrapFilename cfg) (committedShrinkwrapFilename cfg))
       (InstallManager.syncFile (tempShrinkwrapFilename cfg)
                                (committedShrinkwrapFilename cfg)).

(** Lines 108-113: bump the flag file's time stamp, or fail the sanity
    check. *)
Definition refreshMarker : M unit :=
  let* present := fsx.existsSync (InstallManager.commonNodeModulesMarkerFilename im) in
  if (present : bool) then
    fsx.writeFileSync (InstallManager.commonNodeModulesMarkerFilename im) ""
  else
    (* Sanity check -- since we requested a clean install above, this
       should never occur *)
    throw (newError "The install flag file is missing").

(** Lines 116-126: the closing message and the link step. *)
Definition finish (noLink : bool) : M unit :=
  console.log (os_EOL P +:+ colors_green P
    ("Rush generate finished successfully. (" +:+ stopwatch_toString P +:+ ")")) ;;
  if negb noLink then
    let* promise := call (CreateSymlinksForProjects true)
                         (createSymlinksForProjects C true) in
    RushCommandLineParser.catchSyncErrors P parser promise
  else
    console.log (os_EOL P +:+ "Next you should probably run: "
                 +:+ dq +:+ "rush link" +:+ dq).

(** [onExecute], lines 56-127; [isLazy] and [noLink] are the values of
    the two flag parameters. *)
Definition onExecute (isLazy noLink : bool) : M unit :=
  prepare ;;
  (if isLazy then lazyInstall
   else fullInstall ;; refreshMarker) ;;
  finish noLink.

End Methods.

End GenerateAction.

(** ** Approved packages *)

Module ApprovedPackages.

(** An item of the [packages] array of approved-packages.schema.json
    ([definitions/packageInfo]). *)
Record packageInfo := {
  name : string;
  allowedCategories : list string
}.

(** Modelled from the spec: [ApprovedPackagesChecker.rewriteConfigFiles] is
    not among the sources; only its call and the schema of the file it
    writes are.  The spec (4.2) gives the rewrite as a pure function
    [(existingList, observedUsage) -> newList]: an observed name missing
    from the list is added with the categories of the projects that use it,
    a listed name gains the categories it lacks, nothing is removed, and
    the result is sorted by name and deduplicated.  The definitions from
    [insertCategory] to [render] are that function. *)
Fixpoint insertCategory (c : string) (cs : list string) : list string :=
  match cs with
  | [] => [c]
  | d :: rest =>
      match String.compare c d with
      | Eq => cs
      | Lt => c :: cs
      | Gt => d :: insertCategory c rest
      end
  end.

Definition addCategories (cats cs : list string) : list string :=
  foldr insertCategory cs cats.

(** Record that [pkg] is used under the categories [cats]. *)
Fixpoint approve (pkg : string) (cats : list string) (l : list packageInfo)
    : list packageInfo :=
  match l with
  | [] => [{| name := pkg; allowedCategories := addCategories cats [] |}]
  | e :: rest =>
      match String.compare pkg (name e) with
      | Eq => {| name := name e;
                 allowedCategories := addCategories cats (allowedCategories e) |} :: rest
      | Lt => {| name := pkg; allowedCategories := addCategories cats [] |} :: l
      | Gt => e :: approve pkg cats rest
      end
  end.

(** The persisted list, put in order: entries sorted by name, one entry a
    name, each entry's categories sorted and without repeats. *)
Definition normalise (l : list packageInfo) : list packageInfo :=
  foldr (fun e acc => approve (name e) (allowedCategories e) acc) [] l.

(** An observation: an external package and the review category of a
    project that depends on it. *)
Definition usage : Type := string * string.

Definition rewrite (existingList : list packageInfo) (observedUsage : list usage)
    : list packageInfo :=
  foldl (fun acc u => approve u.1 [u.2] acc) (normalise existingList) observedUsage.

(** The file's text, in the shape the schema fixes. *)
Definition quoted (s : string) : string := dq +:+ s +:+ dq.

Definition renderPackage (e : packageInfo) : string :=
  "{ " +:+ quoted "name" +:+ ": " +:+ quoted (name e) +:+ ", "
  +:+ quoted "allowedCategories" +:+ ": [ "
  +:+ String.concat ", " (map quoted (allowedCategories e)) +:+ " ] }".

Definition render (l : list packageInfo) : string :=
  "{ " +:+ quoted "packages" +:+ ": [ "
  +:+ String.concat ", " (map renderPackage l) +:+ " ] }".

(** Strictly ascending: every element is below all that follow it, so the
    list is sorted and has no element twice. *)
Fixpoint ascending (l : list string) : Prop :=
  match l with
  | [] => True
  | x :: rest => Forall (fun y => String.compare x y = Lt) rest /\ ascending rest
  end.

(** The list as the rewrite leaves it: names ascending, and each entry's
    categories ascending. *)
Definition ordered (l : list packageInfo) : Prop :=
  ascending (map name l) /\ Forall (fun e => ascending (allowedCategories e)) l.

(** [pkg] is listed and approved for category [c]. *)
Definition approvedFor (pkg c : string) (l : list packageInfo) : Prop :=
  exists e, e ∈ l /\ name e = pkg /\ c ∈ allowedCategories e.

End ApprovedPackages.

(** ** A small repository on which the statements are run *)

Module Scenario.

Definition nl : string := String (Ascii.ascii_of_nat 10) EmptyString.

(** A POSIX terminal without colours, wide enough that nothing wraps. *)
Definition posix : Platform := {|
  os_EOL := nl;
  path_sep := "/";
  path_delimiter := ":";
  path_join := String.concat "/";
  colors_red := fun s => s;
  colors_green := fun s => s;
  colors_bold := fun s => s;
  wordwrap_soft := fun _ _ s => s;
  String_trim := fun s => s;
  getConsoleWidth := 80;
  stopwatch_toString := "0.10 seconds"
|}.

Definition config : RushConfiguration := {|
  committedShrinkwrapFilename := "/repo/common/npm-shrinkwrap.json";
  tempShrinkwrapFilename := "/repo/common/temp/npm-shrinkwrap.json";
  npmToolFilename := "/repo/common/temp/npm-local/node_modules/.bin/npm";
  commonTempFolder := "/repo/common/temp";
  rushLinkJsonFilename := "/repo/common/temp/rush-link.json";
  projects := [ {| projectFolder := "/repo/a" |}; {| projectFolder := "/repo/b" |} ]
|}.

Definition manifest : string := "/repo/common/temp/package.json".
Definition marker : string := "/repo/common/temp/node_modules/last-install.flag".

Definition noop : Effect unit := fun fs => (inr tt, fs).

(** Modelled from the spec: the install manager of the scenario.  The
    synthesizer writes the synthesized manifest; an install "updates the
    Install Marker" (the caller: "the flag file is normally created by
    installCommonModules()") and touches neither copy of the lock file. *)
Definition manager : InstallManager.t := {|
  InstallManager.commonNodeModulesMarkerFilename := marker;
  InstallManager.ensureLocalNpmTool := fun _ => noop;
  InstallManager.createTempModules := Fs.writeFileSync manifest "{ dependencies }";
  InstallManager.installCommonModules := fun _ => Fs.writeFileSync marker "";
  InstallManager.pushConfigurationNpmArgs :=
    fun npmArgs => npmArgs ++ ["--cache"; "/repo/common/temp/npm-cache"]
|}.

(** Modelled from the spec: the package manager's lock-generation command
    leaves the staging lock file in its working directory; any other
    command leaves the files alone. *)
Definition npm (command : string) (args : list string) (cwd : string) : Effect unit :=
  match args with
  | "shrinkwrap" :: _ =>
      Fs.writeFileSync (path_join posix [cwd; "npm-shrinkwrap.json"]) "{ lock }"
  | _ => noop
  end.

Definition linked : bool -> Effect Promise := fun _ fs => (inr Fulfilled, fs).

Definition collaborators : GenerateAction.Collaborators := {|
  GenerateAction.rewriteConfigFiles := noop;
  GenerateAction.installManager := manager;
  GenerateAction.executeCommand := npm;
  GenerateAction.createSymlinksForProjects := linked
|}.

(** The same, with an install that leaves no flag file behind. *)
Definition forgetfulManager : InstallManager.t := {|
  InstallManager.commonNodeModulesMarkerFilename := marker;
  InstallManager.ensureLocalNpmTool := fun _ => noop;
  InstallManager.createTempModules := Fs.writeFileSync manifest "{ dependencies }";
  InstallManager.installCommonModules := fun _ => noop;
  InstallManager.pushConfigurationNpmArgs := fun npmArgs => npmArgs
|}.

Definition forgetful : GenerateAction.Collaborators := {|
  GenerateAction.rewriteConfigFiles := noop;
  GenerateAction.installManager := forgetfulManager;
  GenerateAction.executeCommand := npm;
  GenerateAction.createSymlinksForProjects := linked
|}.

(** The same, with a package manager that fails (the spec's
    ExternalToolError). *)
Definition toolError : Error := newError "npm install failed with exit code 1".

Definition failingManager : InstallManager.t := {|
  InstallManager.commonNodeModulesMarkerFilename := marker;
  InstallManager.ensureLocalNpmTool := fun _ => noop;
  InstallManager.createTempModules := Fs.writeFileSync manifest "{ dependencies }";
  InstallManager.installCommonModules := fun _ fs => (inl toolError, fs);
  InstallManager.pushConfigurationNpmArgs := fun npmArgs => npmArgs
|}.

Definition failing : GenerateAction.Collaborators := {|
  GenerateAction.rewriteConfigFiles := noop;
  GenerateAction.installManager := failingManager;
  GenerateAction.executeCommand := npm;
  GenerateAction.createSymlinksForProjects := linked
|}.

Definition parser : RushCommandLineParser.t := {|
  RushCommandLineParser.rushConfiguration := config;
  RushCommandLineParser.telemetry_flush := noop;
  RushCommandLineParser.debugParameter := false
|}.

Definition world (files : gmap string Node) (clock : nat) : World := {|
  fs := {| entries := files; now := clock |};
  env := {[ "PATH" := "/usr/bin" ]};
  trace := []
|}.

(** A repository with a committed lock file and nothing installed. *)
Definition committed : World :=
  world {[ "/repo/common/npm-shrinkwrap.json" := File "{ old lock }" 3 ]} 5.

(** A repository that was linked and then lost its [node_modules] folders
    (to "git clean", say): the link flag file is still there. *)
Definition flagged : World :=
  world {[ "/repo/common/temp/rush-link.json" := File "{}" 2 ]} 4.

(** A linked repository. *)
Definition linkedRepo : World :=
  world (<[ "/repo/common/temp/rush-link.json" := File "{}" 2 ]>
         (<[ "/repo/a/node_modules" := Folder 2 ]>
         (<[ "/repo/a/node_modules/b" := Folder 2 ]>
         (<[ "/repo/a/package.json" := File "{}" 1 ]>
         (<[ "/repo/b/node_modules" := Folder 2 ]> ∅))))) 4.

(** The runs of the scenario. *)
Definition lockPath : string := committedShrinkwrapFilename config.
Definition flagPath : string := rushLinkJsonFilename config.

Definition generate (C : GenerateAction.Collaborators) (isLazy : bool) : M unit :=
  GenerateAction.onExecute posix parser C isLazy false.

(** The state in which the install mode is chosen. *)
Definition prepared (C : GenerateAction.Collaborators) : World :=
  (GenerateAction.prepare posix parser C committed).2.

(** The state in which the flag file is to be refreshed. *)
Definition installed (C : GenerateAction.Collaborators) : World :=
  ((GenerateAction.prepare posix parser C ;;
    GenerateAction.fullInstall posix parser C)%js committed).2.

Definition missingFlag : Error := newError "The install flag file is missing".

(** A governance list written by hand, and what two runs observe. *)
Definition approved : list ApprovedPackages.packageInfo :=
  [ {| ApprovedPackages.name := "lodash";
       ApprovedPackages.allowedCategories := ["published"; "internal"] |};
    {| ApprovedPackages.name := "colors";
       ApprovedPackages.allowedCategories := [] |} ].

Definition seen : list ApprovedPackages.usage :=
  [ ("wordwrap", "published"); ("colors", "internal"); ("lodash", "published") ].

Definition again : list ApprovedPackages.usage :=
  [ ("lodash", "published"); ("wordwrap", "published") ].

(** The full install of the scenario, run to its end. *)
Definition fullRun : World := (generate collaborators false committed).2.

(** The lazy install of the scenario, run to its end. *)
Definition lazyRun : World := (generate collaborators true committed).2.

End Scenario.

(** ** Vocabulary of the statements *)

Module Vocabulary.

(** The world a recorded call leaves behind. *)
Definition after (ev : Event) (fs' : FileSystem) (w : World) : World :=
  {| fs := fs'; env := env w; trace := trace w ++ [ev] |}.

(** The line [_exitAndReportError] prints for [error]. *)
Definition reportLine (P : Platform) (this : RushCommandLineParser.t) (error : Error)
    : string :=
  if RushCommandLineParser.debugParameter this then os_EOL P +:+ stack error
  else os_EOL P +:+ colors_red P
         ("ERROR: " +:+ String_trim P
            (wordwrap_soft P (String.length "ERROR: ") (getConsoleWidth P)
               (message error))).

(** The world [_exitAndReportError] stops in. *)
Definition reported (P : Platform) (this : RushCommandLineParser.t) (error : Error)
    (w : World) : World :=
  {| fs := (RushCommandLineParser.telemetry_flush this (fs w)).2;
     env := env w;
     trace := trace w
              ++ [ConsoleError (reportLine P this error); TelemetryFlush; ProcessExit 1] |}.

(** The world the runtime stops in when [error] escaped the script. *)
Definition uncaught (error : Error) (w : World) : World :=
  {| fs := fs w; env := env w;
     trace := trace w ++ [ConsoleError (stack error); ProcessExit 1] |}.

(** The [node_modules] folder of a project. *)
Definition localModuleFolder (P : Platform) (p : RushConfigurationProject) : string :=
  path_join P [projectFolder p; "node_modules"].

(** No project has a [node_modules] folder. *)
Definition unlinked (P : Platform) (cfg : RushConfiguration) (fs : FileSystem) : Prop :=
  forall p, p ∈ projects cfg -> Fs.existsSync (localModuleFolder P p) fs = false.

(** The state in which [UnlinkAction.onExecute] enters its loop. *)
Definition entering (P : Platform) (cfg : RushConfiguration) (w : World) : World :=
  after (DeleteFile (rushLinkJsonFilename cfg))
        (Utilities.deleteFile (rushLinkJsonFilename cfg) (fs w)).2
        (after (ConsoleLog ("Starting " +:+ dq +:+ "rush unlink" +:+ dq +:+ os_EOL P))
               (fs w) w).

(** An action that does not create the entry at [p]. *)
Definition KeepsAbsent {A} (p : string) (c : Effect A) : Prop :=
  forall fs, entries fs !! p = None -> entries (c fs).2 !! p = None.

(** The events by which the command itself settles an install: a run of
    the package manager's command line, the copy of the lock file, a write
    to a file. *)
Definition settlesInstall (ev : Event) : bool :=
  match ev with
  | ExecuteCommand _ _ _ | SyncFile _ _ | FsWriteFile _ _ => true
  | _ => false
  end.

End Vocabulary.
Export Vocabulary.

(** ** JSON values, and the part of JSON Schema the approved-packages
    schema uses *)

Module Json.
Local Unset Elimination Schemes.

(** A parsed JSON document; an object has each key once. *)
Inductive value :=
| Null
| Bool (b : bool)
| Number (n : Z)
| Str (s : string)
| Array (items : list value)
| Object (members : gmap string value).
End Json.

Module JsonSchema.
Import Json.
Local Unset Elimination Schemes.

(** The keywords of approved-packages.schema.json: ["type": "string"];
    ["type": "array"] with ["items"]; ["type": "object"] with
    ["properties"], ["required"] and ["additionalProperties"]. *)
Inductive schema :=
| String_
| ArrayOf (items : schema)
| ObjectOf (properties : list (string * schema)) (required : list string)
           (additionalProperties : bool).

(** Validation, as JSON Schema defines these keywords: a property that is
    present must pass its schema, every required key must be present, and
    with ["additionalProperties": false] no other key may be. *)
Fixpoint validate (s : schema) (v : value) {struct s} : bool :=
  match s, v with
  | String_, Str _ => true
  | ArrayOf items, Array vs => forallb (validate items) vs
  | ObjectOf properties required additionalProperties, Object members =>
      forallb (fun p : string * schema =>
                 match members !! p.1 with
                 | Some x => validate p.2 x
                 | None => true
                 end) properties
      && forallb (fun k => bool_decide (is_Some (members !! k))) required
      && (additionalProperties
          || bool_decide (dom members ⊆ list_to_set (map fst properties)))
  | _, _ => false
  end.
End JsonSchema.

(** ** approved-packages.schema.json *)

Module ApprovedPackagesSchema.
Import Json JsonSchema.

(** ["definitions"."packageInfo"], lines 5-22. *)
Definition packageInfo : schema :=
  ObjectOf [ ("name", String_); ("allowedCategories", ArrayOf String_) ]
           [ "name" ] false.

(** The schema of the file, lines 24-37; the items of ["packages"] are the
    ["$ref"] to [packageInfo]. *)
Definition file : schema :=
  ObjectOf [ ("$schema", String_); ("packages", ArrayOf packageInfo) ]
           [ "packages" ] false.

(** The JSON object of a package entry: its name, and its categories when
    it lists any. *)
Definition encodePackage (p : string * option (list string)) : value :=
  Object (<["name" := Str p.1]>
            match p.2 with
            | Some cats => {[ "allowedCategories" := Array (map Str cats) ]}
            | None => ∅
            end).

(** The JSON document of a list of entries, with or without the
    ["$schema"] member. *)
Definition encodeFile (schemaUri : option string)
    (packages : list (string * option (list string))) : value :=
  Object (<["packages" := Array (map encodePackage packages)]>
            match schemaUri with
            | Some uri => {[ "$schema" := Str uri ]}
            | None => ∅
            end).
End ApprovedPackagesSchema.

(** ** Vocabulary for whole runs *)

Module Runs.

(** Every run of [m] leaves the environment alone and adds to the trace
    only events that [ok] admits. *)
Definition Emits {A} (ok : Event -> bool) (m : M A) : Prop :=
  forall w r w', m w = (r, w') ->
    env w' = env w
    /\ exists tr, trace w' = trace w ++ tr /\ Forall (fun ev => ok ev = true) tr.

(** The events of the install part of "rush generate": anything but the
    link step, its promise and the exit path. *)
Definition installEvent (ev : Event) : bool :=
  match ev with
  | CreateSymlinksForProjects _ | PromiseCatch _
  | TelemetryFlush | ProcessExit _ | ConsoleError _ => false
  | _ => true
  end.

(** The calls a "rush generate" in the given mode may make itself: the
    install it asks for is of the mode's type, only the full mode runs the
    package manager's command line, copies the lock file or writes a file,
    the npm tool is not asked to reinstall by force, and a link step is a
    forced one. *)
Definition modeEvent (isLazy : bool) (ev : Event) : bool :=
  match ev with
  | InstallCommonModules InstallType.Normal => isLazy
  | InstallCommonModules InstallType.ForceClean => negb isLazy
  | ExecuteCommand _ _ _ | SyncFile _ _ | FsWriteFile _ _ => negb isLazy
  | EnsureLocalNpmTool forceReinstall => negb forceReinstall
  | CreateSymlinksForProjects force => force
  | _ => true
  end.

(** The same, for the install part. *)
Definition installOnly (isLazy : bool) (ev : Event) : bool :=
  installEvent ev && modeEvent isLazy ev.

(** The closing message of "rush generate". *)
Definition successLine (P : Platform) : string :=
  os_EOL P +:+ colors_green P
    ("Rush generate finished successfully. (" +:+ stopwatch_toString P +:+ ")").

(** The world after the closing message and the call of the link step,
    which left the file system [fs']; [w3] is the world the install part
    ended in. *)
Definition closed (P : Platform) (w3 : World) (fs' : FileSystem) : World :=
  after (CreateSymlinksForProjects true) fs'
        (after (ConsoleLog (successLine P)) (fs w3) w3).

(** The install part of [GenerateAction.onExecute]: everything before the
    closing message. *)
Definition installPart (P : Platform) (parser : RushCommandLineParser.t)
    (C : GenerateAction.Collaborators) (isLazy : bool) : M unit :=
  (GenerateAction.prepare P parser C ;;
   if isLazy then GenerateAction.lazyInstall P C
   else (GenerateAction.fullInstall P parser C ;; GenerateAction.refreshMarker C))%js.

End Runs.
Export Runs.

(** ** More runs on the small repository *)

Module MoreScenarios.
Import Scenario.

(** Modelled from the spec: a link step whose promise is rejected (the
    spec's FilesystemError while linking). *)
Definition linkError : Error := newError "EPERM: operation not permitted, symlink".

Definition rejecting : GenerateAction.Collaborators := {|
  GenerateAction.rewriteConfigFiles := noop;
  GenerateAction.installManager := manager;
  GenerateAction.executeCommand := npm;
  GenerateAction.createSymlinksForProjects := fun _ fs => (inr (Rejected linkError), fs)
|}.

(** Modelled from the spec: a package manager whose command line fails
    (the spec's ExternalToolError), behind an install that works. *)
Definition shrinkwrapError : Error := newError "npm shrinkwrap failed with exit code 1".

Definition unlocked : GenerateAction.Collaborators := {|
  GenerateAction.rewriteConfigFiles := noop;
  GenerateAction.installManager := manager;
  GenerateAction.executeCommand := fun _ _ _ fs => (inl shrinkwrapError, fs);
  GenerateAction.createSymlinksForProjects := linked
|}.

(** The state in which the closing step of a full "rush generate" starts. *)
Definition settled (C : GenerateAction.Collaborators) : World :=
  (installPart posix parser C false committed).2.

(** The file system the clean install leaves. *)
Definition cleanInstalled (C : GenerateAction.Collaborators) : FileSystem :=
  (InstallManager.installCommonModules (GenerateAction.installManager C)
     InstallType.ForceClean (fs (prepared C))).2.

End MoreScenarios.

(* ================================================================== *)
(** * Part II: properties                                              *)
(* ================================================================== *)

(** ** Running the command monad *)

Lemma bind_assoc {A B D} (m : M A) (k : A -> M B) (h : B -> M D) (w : World) :
  bind (bind m k) h w = bind m (fun a => bind (k a) h) w.
Proof. unfold bind. destruct (m w) as [[a|e|c] w']; reflexivity. Qed.

Lemma bind_Return {A B} (m : M A) (k : A -> M B) (w w' : World) (a : A) :
  m w = (Return a, w') -> bind m k w = k a w'.
Proof. intros H. unfold bind. rewrite H. reflexivity. Qed.

Lemma bind_Throw {A B} (m : M A) (k : A -> M B) (w w' : World) (e : Error) :
  m w = (Throw e, w') -> bind m k w = (Throw e, w').
Proof. intros H. unfold bind. rewrite H. reflexivity. Qed.

Lemma bind_inv_Return {A B} (m : M A) (k : A -> M B) (w w2 : World) (b : B) :
  bind m k w = (Return b, w2) ->
  exists a w1, m w = (Return a, w1) /\ k a w1 = (Return b, w2).
Proof.
  unfold bind. destruct (m w) as [[a|e|c] w1]; intros H; try discriminate.
  exists a, w1. split; [reflexivity | exact H].
Qed.

Lemma emit_run (ev : Event) (w : World) :
  emit ev w = (Return tt, after ev (fs w) w).
Proof. reflexivity. Qed.

Lemma call_run {A} (ev : Event) (c : Effect A) (w : World) :
  call ev c w =
  match c (fs w) with
  | (inr a, fs') => (Return a, after ev fs' w)
  | (inl e, fs') => (Throw e, after ev fs' w)
  end.
Proof.
  unfold call, bind, emit, liftFs, after. simpl.
  destruct (c (fs w)) as [[e|a] fs']; reflexivity.
Qed.

Lemma call_inv_Return {A} (ev : Event) (c : Effect A) (w w' : World) (a : A) :
  call ev c w = (Return a, w') ->
  exists fs', c (fs w) = (inr a, fs') /\ w' = after ev fs' w.
Proof.
  rewrite call_run. destruct (c (fs w)) as [[e|x] fs']; intros H; inversion H; subst.
  exists fs'. split; reflexivity.
Qed.

(** ** The command layer's exit path *)

Section Parser.

Variable P : Platform.
Variable this : RushCommandLineParser.t.

Local Abbreviation reportLine := (Vocabulary.reportLine P this).
Local Abbreviation reported := (Vocabulary.reported P this).

Lemma exitWithError_run (w : World) :
  RushCommandLineParser.exitWithError this w =
  (Exit 1%Z,
   {| fs := (RushCommandLineParser.telemetry_flush this (fs w)).2;
      env := env w;
      trace := trace w ++ [TelemetryFlush; ProcessExit 1] |}).
Proof.
  unfold RushCommandLineParser.exitWithError, try_finally.
  rewrite call_run.
  destruct (RushCommandLineParser.telemetry_flush this (fs w)) as [[e|[]] fs'];
    unfold process.exit, after; simpl; rewrite <- app_assoc; reflexivity.
Qed.

Lemma exitAndReportError_run (error : Error) (w : World) :
  RushCommandLineParser._exitAndReportError P this error w = (Exit 1%Z, reported error w).
Proof.
  unfold RushCommandLineParser._exitAndReportError, Vocabulary.reported, Vocabulary.reportLine.
  destruct (RushCommandLineParser.debugParameter this);
    unfold bind, console.error; rewrite emit_run, exitWithError_run;
    unfold after; simpl; rewrite <- app_assoc; reflexivity.
Qed.

(** C10.  [exitWithError] ends the process with exit code 1 whatever the
    telemetry flush does: the flush is attempted (its call is on the
    trace, and the file system is as the flush left it), and whether it
    returned or threw, [process.exit(1)] is the last thing that happens. *)
Theorem exitWithError_always_exits_1 (w : World) :
  exists w',
    RushCommandLineParser.exitWithError this w = (Exit 1%Z, w')
    /\ trace w' = trace w ++ [TelemetryFlush; ProcessExit 1]
    /\ fs w' = (RushCommandLineParser.telemetry_flush this (fs w)).2
    /\ env w' = env w.
Proof.
  eexists. rewrite exitWithError_run. repeat split; reflexivity.
Qed.

Lemma caught_app (a b : list Event) :
  Node.caught (a ++ b) = Node.caught a ++ Node.caught b.
Proof.
  induction a as [|ev a IH]; [reflexivity|].
  destruct ev as [| | | | | | | | | | | | | |promise|]; simpl; try exact IH.
  destruct promise; simpl; rewrite ?IH; reflexivity.
Qed.


(** C5, as the code has it.  Initialising the command layer changes the
    process-wide environment: [_ensureEnvironment] replaces [PATH] by the
    shared cache's [node_modules/.bin] folder, the path delimiter and the
    previous value.  Every other variable, the file system and the trace
    are as before. *)
Theorem ensureEnvironment_prefixes_PATH (w : World) :
  exists w',
    RushCommandLineParser._ensureEnvironment P this w = (Return tt, w')
    /\ env w' !! "PATH" =
         Some (path_join P [commonTempFolder (RushCommandLineParser.rushConfiguration this);
                            "node_modules"; ".bin"]
               +:+ path_delimiter P
               +:+ RushCommandLineParser.getenv "PATH" (env w))
    /\ (forall name, name <> "PATH" -> env w' !! name = env w !! name)
    /\ fs w' = fs w
    /\ trace w' = trace w.
Proof.
  eexists. split; [reflexivity|]. simpl. split; [apply lookup_insert_eq|].
  split; [|split; reflexivity].
  intros name Hname. apply lookup_insert_ne. congruence.
Qed.

End Parser.

(** ** Unlinking *)

Section Unlink.

Variable P : Platform.
Variable cfg : RushConfiguration.

Local Abbreviation flag := (rushLinkJsonFilename cfg).
Local Abbreviation folderOf := (localModuleFolder P).

Lemma existsSync_false (p : string) (fs0 : FileSystem) :
  Fs.existsSync p fs0 = false <-> entries fs0 !! p = None.
Proof.
  unfold Fs.existsSync. destruct (entries fs0 !! p); split; intros H; congruence.
Qed.

Lemma beneath_self (folder : string) : Utilities.beneath P folder folder = true.
Proof. unfold Utilities.beneath. rewrite String.eqb_refl. reflexivity. Qed.

Lemma dangerouslyDeletePath_lookup (folder q : string) (fs0 : FileSystem) :
  entries (Utilities.dangerouslyDeletePath P folder fs0).2 !! q =
  if Utilities.beneath P folder q then None else entries fs0 !! q.
Proof.
  simpl. destruct (Utilities.beneath P folder q) eqn:Hq.
  - apply map_lookup_filter_None. right. intros x _. simpl. rewrite Hq. discriminate.
  - destruct (entries fs0 !! q) as [n|] eqn:Hn.
    + apply map_lookup_filter_Some. split; [exact Hn | exact Hq].
    + apply map_lookup_filter_None. left. exact Hn.
Qed.

Lemma deleteFile_lookup (p q : string) (fs0 : FileSystem) :
  entries (Utilities.deleteFile p fs0).2 !! q =
  if decide (p = q) then None else entries fs0 !! q.
Proof.
  unfold Utilities.deleteFile.
  destruct (entries fs0 !! p) as [n|] eqn:Hp; simpl; case_decide; subst.
  - apply lookup_delete_eq.
  - apply lookup_delete_ne. assumption.
  - exact Hp.
  - reflexivity.
Qed.

Lemma deleteFile_absent (p : string) (fs0 : FileSystem) :
  entries fs0 !! p = None -> (Utilities.deleteFile p fs0).2 = fs0.
Proof. intros H. unfold Utilities.deleteFile. rewrite H. reflexivity. Qed.

(** One turn of the loop. *)
Lemma purgeProjects_step (p : RushConfigurationProject)
    (ps : list RushConfigurationProject) (did : bool) (w : World) :
  UnlinkAction.purgeProjects P (p :: ps) did w =
  if Fs.existsSync (folderOf p) (fs w) then
    UnlinkAction.purgeProjects P ps true
      (after (DangerouslyDeletePath (folderOf p))
             (Utilities.dangerouslyDeletePath P (folderOf p) (fs w)).2
             (after (ConsoleLog ("Purging " +:+ folderOf p)) (fs w) w))
  else UnlinkAction.purgeProjects P ps did w.
Proof.
  simpl. unfold bind at 1, fsx.existsSync, localModuleFolder. cbn beta iota.
  destruct (Fs.existsSync _ (fs w)); [|reflexivity].
  unfold bind at 1, console.log. rewrite emit_run.
  unfold bind at 1. rewrite call_run. reflexivity.
Qed.

(** The loop does nothing where there is nothing to purge. *)
Lemma purgeProjects_unlinked (ps : list RushConfigurationProject) (did : bool) (w : World) :
  (forall p, p ∈ ps -> Fs.existsSync (folderOf p) (fs w) = false) ->
  UnlinkAction.purgeProjects P ps did w = (Return did, w).
Proof.
  induction ps as [|p ps IH]; intros H; [reflexivity|].
  rewrite purgeProjects_step, (H p) by (left).
  apply IH. intros q Hq. apply H. right. exact Hq.
Qed.

(** The loop always runs to its end; it creates nothing, leaves no
    project's [node_modules] folder, and touches only what lies in or
    below such a folder. *)
Lemma purgeProjects_run (ps : list RushConfigurationProject) :
  forall (did : bool) (w : World),
  exists did' w',
    UnlinkAction.purgeProjects P ps did w = (Return did', w')
    /\ env w' = env w
    /\ (forall q, entries (fs w) !! q = None -> entries (fs w') !! q = None)
    /\ (forall p, p ∈ ps -> entries (fs w') !! folderOf p = None)
    /\ (forall q, (forall p, p ∈ ps -> Utilities.beneath P (folderOf p) q = false) ->
                  entries (fs w') !! q = entries (fs w) !! q).
Proof.
  induction ps as [|p ps IH]; intros did w.
  - exists did, w. repeat split; try reflexivity; auto.
    intros p Hp. inversion Hp.
  - rewrite purgeProjects_step.
    destruct (Fs.existsSync (folderOf p) (fs w)) eqn:Hex.
    + match goal with |- context [UnlinkAction.purgeProjects P ps true ?w0] =>
        destruct (IH true w0) as (did' & w' & Hrun & Henv & Hmono & Hgone & Hframe) end.
      exists did', w'. split; [exact Hrun|].
      split; [exact Henv|]. split; [|split].
      * intros q Hq. apply Hmono. unfold after; cbn [fs].
        rewrite dangerouslyDeletePath_lookup, Hq.
        destruct (Utilities.beneath P (folderOf p) q); reflexivity.
      * intros p' Hp'. apply elem_of_cons in Hp' as [->|Hp']; [|apply Hgone; exact Hp'].
        apply Hmono. unfold after; cbn [fs].
        rewrite dangerouslyDeletePath_lookup, beneath_self. reflexivity.
      * intros q Hq. rewrite Hframe by (intros p' Hp'; apply Hq; right; exact Hp').
        unfold after; cbn [fs].
        rewrite dangerouslyDeletePath_lookup, (Hq p) by (left). reflexivity.
    + destruct (IH did w) as (did' & w' & Hrun & Henv & Hmono & Hgone & Hframe).
      exists did', w'. split; [exact Hrun|]. split; [exact Henv|].
      split; [exact Hmono|]. split.
      * intros p' Hp'. apply elem_of_cons in Hp' as [->|Hp']; [|apply Hgone; exact Hp'].
        apply Hmono. apply existsSync_false. exact Hex.
      * intros q Hq. apply Hframe. intros p' Hp'. apply Hq. right. exact Hp'.
Qed.

Local Abbreviation entering := (Vocabulary.entering P cfg).

Lemma onExecute_enter (w : World) :
  UnlinkAction.onExecute P cfg w =
  bind (UnlinkAction.purgeProjects P (projects cfg) false)
       (fun didAnything : bool =>
          if negb didAnything then console.log "Nothing to do."
          else console.log (os_EOL P +:+ "Done."))
       (entering w).
Proof.
  unfold UnlinkAction.onExecute, Vocabulary.entering.
  unfold bind at 1, console.log at 1. rewrite emit_run.
  unfold bind at 1. rewrite call_run. simpl.
  unfold Utilities.deleteFile.
  destruct (entries (fs w) !! flag); reflexivity.
Qed.

Lemma unlink_unlinked_run (w : World) :
  unlinked P cfg (fs w) ->
  UnlinkAction.onExecute P cfg w =
  (Return tt, after (ConsoleLog "Nothing to do.") (fs (entering w)) (entering w)).
Proof.
  intros Hun. rewrite onExecute_enter.
  rewrite (bind_Return _ _ _ (entering w) false).
  - reflexivity.
  - apply purgeProjects_unlinked. intros p Hp. apply existsSync_false.
    simpl. rewrite deleteFile_lookup. case_decide; [reflexivity|].
    apply existsSync_false. apply Hun. exact Hp.
Qed.

Lemma unlink_run (w : World) :
  exists w',
    UnlinkAction.onExecute P cfg w = (Return tt, w')
    /\ env w' = env w
    /\ entries (fs w') !! flag = None
    /\ unlinked P cfg (fs w')
    /\ (forall q, q <> flag ->
          (forall p, p ∈ projects cfg -> Utilities.beneath P (folderOf p) q = false) ->
          entries (fs w') !! q = entries (fs w) !! q).
Proof.
  rewrite onExecute_enter.
  destruct (purgeProjects_run (projects cfg) false (entering w))
    as (did & w1 & Hrun & Henv & Hmono & Hgone & Hframe).
  rewrite (bind_Return _ _ _ _ _ Hrun).
  assert (Hflag : entries (fs (entering w)) !! flag = None).
  { simpl. rewrite deleteFile_lookup. case_decide; [reflexivity | congruence]. }
  destruct (negb did); unfold console.log; rewrite emit_run; eexists;
    (split; [reflexivity|]); simpl;
    (split; [exact Henv|]); (split; [apply Hmono; exact Hflag|]);
    (split; [intros p Hp; apply existsSync_false, Hgone; exact Hp|]);
    intros q Hq Hb; rewrite (Hframe q Hb); simpl; rewrite deleteFile_lookup;
    case_decide; congruence.
Qed.

(** C8.  From every repository state [unlink] runs to its end, and then the
    link flag file is gone and no project has a [node_modules] folder, so
    the next link has to be a full one.  Nothing else is touched: an entry
    that is neither the flag file nor in or below a project's
    [node_modules] folder is as it was, and so is the environment. *)
Theorem unlink_removes_every_link (w : World) :
  exists w',
    UnlinkAction.onExecute P cfg w = (Return tt, w')
    /\ Fs.existsSync flag (fs w') = false
    /\ (forall p, p ∈ projects cfg -> Fs.existsSync (folderOf p) (fs w') = false)
    /\ (forall q, q <> flag ->
          (forall p, p ∈ projects cfg -> Utilities.beneath P (folderOf p) q = false) ->
          entries (fs w') !! q = entries (fs w) !! q)
    /\ env w' = env w.
Proof.
  destruct (unlink_run w) as (w' & Hrun & Henv & Hflag & Hun & Hframe).
  exists w'. split; [exact Hrun|]. split; [apply existsSync_false; exact Hflag|].
  split; [exact Hun|]. split; [exact Hframe | exact Henv].
Qed.

(** C4, as the code has it.  Where no project has a [node_modules] folder,
    [unlink] reports "Nothing to do." and its only effect on the file
    system is that of deleting the link flag file: it removes that file
    when it exists, and changes nothing when it does not.  From any state,
    a second [unlink] right after a first one changes nothing and reports
    "Nothing to do.". *)
Theorem unlink_idempotent :
  (forall w, unlinked P cfg (fs w) ->
     exists w',
       UnlinkAction.onExecute P cfg w = (Return tt, w')
       /\ last (trace w') = Some (ConsoleLog "Nothing to do.")
       /\ fs w' = (Utilities.deleteFile flag (fs w)).2
       /\ (Fs.existsSync flag (fs w) = false -> fs w' = fs w))
  /\ (forall w, exists w1 w2,
       UnlinkAction.onExecute P cfg w = (Return tt, w1)
       /\ UnlinkAction.onExecute P cfg w1 = (Return tt, w2)
       /\ fs w2 = fs w1
       /\ last (trace w2) = Some (ConsoleLog "Nothing to do.")).
Proof.
  split.
  - intros w Hun. eexists. split; [apply unlink_unlinked_run; exact Hun|].
    simpl. split; [apply last_snoc|]. split; [reflexivity|].
    intros Hflag. apply deleteFile_absent, existsSync_false. exact Hflag.
  - intros w. destruct (unlink_run w) as (w1 & Hrun & _ & Hflag & Hun & _).
    exists w1. eexists. split; [exact Hrun|].
    split; [apply unlink_unlinked_run; exact Hun|].
    simpl. split; [apply deleteFile_absent; exact Hflag | apply last_snoc].
Qed.

End Unlink.

(** ** The file system primitives and the clock *)

Lemma unlinkSync_Return (p : string) (fs0 fs1 : FileSystem) :
  Fs.unlinkSync p fs0 = (inr tt, fs1) ->
  fs1 = {| entries := delete p (entries fs0); now := S (now fs0) |}.
Proof.
  unfold Fs.unlinkSync. destruct (entries fs0 !! p) as [[d t|t]|]; intros H; inversion H.
  reflexivity.
Qed.

Lemma writeFileSync_Return (p data : string) (fs0 fs1 : FileSystem) :
  Fs.writeFileSync p data fs0 = (inr tt, fs1) ->
  fs1 = {| entries := <[p := File data (now fs0)]> (entries fs0); now := S (now fs0) |}.
Proof.
  unfold Fs.writeFileSync. destruct (entries fs0 !! p) as [[d t|t]|]; intros H; inversion H;
    reflexivity.
Qed.

Lemma wf_delete (p : string) (fs0 : FileSystem) :
  wf fs0 -> wf {| entries := delete p (entries fs0); now := S (now fs0) |}.
Proof.
  intros Hwf q n Hq. simpl in *.
  apply lookup_delete_Some in Hq as [_ Hq]. apply Hwf in Hq. lia.
Qed.

Lemma wf_insert (p data : string) (fs0 : FileSystem) :
  wf fs0 -> wf {| entries := <[p := File data (now fs0)]> (entries fs0); now := S (now fs0) |}.
Proof.
  intros Hwf q n Hq. simpl in *.
  apply lookup_insert_Some in Hq as [[_ <-]|[_ Hq]]; simpl; [lia|].
  apply Hwf in Hq. lia.
Qed.

Lemma Timely_unlinkSync (p : string) : Timely (Fs.unlinkSync p).
Proof.
  intros fs0 Hwf. unfold Fs.unlinkSync.
  destruct (entries fs0 !! p) as [[d t|t]|]; simpl; auto using wf_delete.
Qed.

Lemma Timely_writeFileSync (p data : string) : Timely (Fs.writeFileSync p data).
Proof.
  intros fs0 Hwf. unfold Fs.writeFileSync.
  destruct (entries fs0 !! p) as [[d t|t]|]; simpl; auto using wf_insert.
Qed.

(** A successful [syncFile] keeps the clock discipline and leaves the
    destination, when there is one, as the newest entry. *)
Lemma syncFile_Return (src dst : string) (fs0 fs1 : FileSystem) :
  InstallManager.syncFile src dst fs0 = (inr tt, fs1) ->
  wf fs0 ->
  wf fs1
  /\ (forall n, entries fs1 !! dst = Some n ->
      forall q n', entries fs1 !! q = Some n' -> node_mtime n' <= node_mtime n).
Proof.
  unfold InstallManager.syncFile. intros H Hwf.
  destruct (entries fs0 !! src) as [[d t|t]|].
  - destruct (entries fs0 !! dst) as [[d' t'|t']|]; inversion H; subst; clear H;
      (split; [apply wf_insert; exact Hwf|]); simpl; intros n Hn q n' Hq;
      rewrite lookup_insert_eq in Hn; inversion Hn; subst; simpl;
      apply lookup_insert_Some in Hq as [[_ <-]|[_ Hq]]; simpl; try lia;
      apply Hwf in Hq; lia.
  - inversion H.
  - destruct (entries fs0 !! dst) as [n0|] eqn:Hdst; inversion H; subst; clear H.
    + split; [apply wf_delete; exact Hwf|]. simpl. intros n Hn.
      rewrite lookup_delete_eq in Hn. discriminate.
    + split; [exact Hwf|]. intros n Hn. congruence.
Qed.

(** ** Generating: the install and its lock file *)

Section Generate.
Variable P : Platform.
Variable parser : RushCommandLineParser.t.
Variable C : GenerateAction.Collaborators.

Local Abbreviation cfg := (RushCommandLineParser.rushConfiguration parser).
Local Abbreviation im := (GenerateAction.installManager C).
Local Abbreviation committed := (committedShrinkwrapFilename cfg).
Local Abbreviation staging := (tempShrinkwrapFilename cfg).
Local Abbreviation marker := (InstallManager.commonNodeModulesMarkerFilename im).
Local Abbreviation quiet := (Forall (fun ev => settlesInstall ev = false)).

Lemma existsSync_run (p : string) (w : World) :
  fsx.existsSync p w = (Return (Fs.existsSync p (fs w)), w).
Proof. reflexivity. Qed.

Lemma unlinkSync_inv (p : string) (w w1 : World) :
  fsx.unlinkSync p w = (Return tt, w1) ->
  w1 = after (FsUnlink p) {| entries := delete p (entries (fs w)); now := S (now (fs w)) |} w.
Proof.
  unfold fsx.unlinkSync. intros H. apply call_inv_Return in H as (fs' & Hfs & ->).
  apply unlinkSync_Return in Hfs. subst. reflexivity.
Qed.

Lemma deleteShrinkwrapFiles_Return (w w1 : World) :
  GenerateAction.deleteShrinkwrapFiles P parser w = (Return tt, w1) ->
  entries (fs w1) !! committed = None
  /\ env w1 = env w
  /\ (wf (fs w) -> wf (fs w1))
  /\ exists tr, trace w1 = trace w ++ tr /\ quiet tr.
Proof.
  unfold GenerateAction.deleteShrinkwrapFiles. intros H.
  apply bind_inv_Return in H as ([] & wa & Ha & Hb).
  assert (Hfirst : entries (fs wa) !! committed = None /\ env wa = env w
                   /\ (wf (fs w) -> wf (fs wa))
                   /\ exists tr, trace wa = trace w ++ tr /\ quiet tr).
  { unfold bind at 1 in Ha. rewrite existsSync_run in Ha.
    destruct (Fs.existsSync committed (fs w)) eqn:Hex.
    - apply bind_inv_Return in Ha as ([] & wl & Hl & Hu).
      unfold console.log in Hl. rewrite emit_run in Hl. inversion Hl; subst; clear Hl.
      apply unlinkSync_inv in Hu. subst. simpl.
      split; [apply lookup_delete_eq|]. split; [reflexivity|].
      split; [apply wf_delete|].
      eexists. rewrite <- app_assoc. split; [reflexivity|].
      repeat constructor.
    - inversion Ha; subst; clear Ha.
      split; [apply existsSync_false; exact Hex|]. split; [reflexivity|].
      split; [auto|]. exists []. rewrite app_nil_r. split; [reflexivity|constructor]. }
  destruct Hfirst as (Hc & Henv & Hwf & tr & Htr & Hq).
  unfold bind at 1 in Hb. rewrite existsSync_run in Hb.
  destruct (Fs.existsSync staging (fs wa)) eqn:Hex.
  - apply unlinkSync_inv in Hb. subst. simpl.
    split; [rewrite lookup_delete_None; right; exact Hc|].
    split; [exact Henv|]. split; [intros; apply wf_delete; auto|].
    exists (tr ++ [FsUnlink staging]). rewrite Htr, <- app_assoc.
    split; [reflexivity|]. apply Forall_app. split; [exact Hq|repeat constructor].
  - inversion Hb; subst; clear Hb.
    split; [exact Hc|]. split; [exact Henv|]. split; [exact Hwf|].
    exists tr. split; assumption.
Qed.

Local Abbreviation G_prepare := (GenerateAction.prepare P parser C).
Local Abbreviation G_lazyInstall := (GenerateAction.lazyInstall P C).
Local Abbreviation G_fullInstall := (GenerateAction.fullInstall P parser C).
Local Abbreviation G_refreshMarker := (GenerateAction.refreshMarker C).
Local Abbreviation G_finish := (GenerateAction.finish P parser C).
Local Abbreviation G_onExecute := (GenerateAction.onExecute P parser C).
Local Abbreviation install := (InstallManager.installCommonModules im).
Local Abbreviation npmArgs := (InstallManager.pushConfigurationNpmArgs im ["shrinkwrap"]).
Local Abbreviation shrinkwrap :=
  (GenerateAction.executeCommand C (npmToolFilename cfg) npmArgs (commonTempFolder cfg)).
Local Abbreviation link := (GenerateAction.createSymlinksForProjects C true).
Local Abbreviation flush := (RushCommandLineParser.telemetry_flush parser).

Lemma Timely_run {A} (c : Effect A) (fs0 fs1 : FileSystem) (r : Error + A) :
  Timely c -> c fs0 = (r, fs1) -> wf fs0 -> wf fs1.
Proof. intros Hc Hrun Hwf. apply Hc in Hwf. rewrite Hrun in Hwf. exact Hwf. Qed.

Lemma log_inv (s : string) (w w1 : World) (r : Completion unit) :
  console.log s w = (r, w1) -> r = Return tt /\ w1 = after (ConsoleLog s) (fs w) w.
Proof. unfold console.log. rewrite emit_run. intros H. inversion H. split; reflexivity. Qed.

Lemma prepare_Return (w w1 : World) :
  G_prepare w = (Return tt, w1) ->
  entries (fs w1) !! committed = None
  /\ env w1 = env w
  /\ (Timely (GenerateAction.rewriteConfigFiles C) ->
      Timely (InstallManager.ensureLocalNpmTool im false) ->
      Timely (InstallManager.createTempModules im) ->
      wf (fs w) -> wf (fs w1))
  /\ exists tr, trace w1 = trace w ++ tr /\ quiet tr.
Proof.
  unfold GenerateAction.prepare. intros H.
  apply bind_inv_Return in H as ([] & wa & Ha & H).
  apply call_inv_Return in Ha as (fsa & Hfa & ->).
  apply bind_inv_Return in H as ([] & wb & Hb & H).
  apply log_inv in Hb as [_ ->].
  apply bind_inv_Return in H as ([] & wc & Hc & H).
  apply call_inv_Return in Hc as (fsc & Hfc & ->).
  apply bind_inv_Return in H as ([] & wd & Hd & H).
  apply call_inv_Return in Hd as (fsd & Hfd & ->).
  apply deleteShrinkwrapFiles_Return in H as (Hgone & Henv & Hwf & tr & Htr & Hq).
  split; [exact Hgone|]. split; [exact Henv|]. split.
  - intros T1 T2 T3 Hw. apply Hwf. simpl.
    eapply Timely_run; [exact T3 | exact Hfd |].
    eapply Timely_run; [exact T2 | exact Hfc |].
    eapply Timely_run; [exact T1 | exact Hfa | exact Hw].
  - eexists. rewrite Htr. simpl. rewrite <- !app_assoc. split; [reflexivity|].
    simpl. repeat constructor. exact Hq.
Qed.

Lemma lazyInstall_facts (w w1 : World) (r : Completion unit) :
  G_lazyInstall w = (r, w1) ->
  fs w1 = (install InstallType.Normal (fs w)).2
  /\ env w1 = env w
  /\ exists tr, trace w1 = trace w ++ tr /\ quiet tr
                /\ InstallCommonModules InstallType.Normal ∈ tr.
Proof.
  unfold GenerateAction.lazyInstall, bind at 1, console.log at 1. rewrite emit_run.
  unfold bind at 1. rewrite call_run. cbn [fs after env trace].
  destruct (install InstallType.Normal (fs w)) as [[e|[]] fs'];
    [|unfold console.log; rewrite emit_run]; intros H; inversion H; subst; clear H;
    cbn [fs after env trace snd]; (split; [reflexivity|]); (split; [reflexivity|]);
    eexists; rewrite <- !app_assoc; (split; [reflexivity|]); simpl;
    (split; [repeat constructor | set_solver]).
Qed.

Lemma finish_facts (noLink : bool) (w w1 : World) (r : Completion unit) :
  G_finish noLink w = (r, w1) ->
  env w1 = env w
  /\ (forall p, KeepsAbsent p link -> KeepsAbsent p flush ->
                entries (fs w) !! p = None -> entries (fs w1) !! p = None)
  /\ (r = Return tt -> forall p, Preserves p link ->
                entries (fs w1) !! p = entries (fs w) !! p)
  /\ exists tr, trace w1 = trace w ++ tr /\ quiet tr.
Proof.
  unfold GenerateAction.finish, bind at 1, console.log at 1. rewrite emit_run.
  destruct noLink; cbn [negb].
  - unfold console.log. rewrite emit_run. intros H; inversion H; subst; clear H.
    cbn [fs after env trace]. split; [reflexivity|]. split; [auto|]. split; [auto|].
    eexists. rewrite <- !app_assoc. split; [reflexivity|]. repeat constructor.
  - unfold bind at 1. rewrite call_run. cbn [fs after env trace].
    pose proof (fun p (K : KeepsAbsent p link) => K (fs w)) as Hk.
    pose proof (fun p (K : Preserves p link) => K (fs w)) as Hp.
    destruct (link (fs w)) as [[e|pr] fs'] eqn:Hlink; cbn [snd] in Hk, Hp.
    + intros H; inversion H; subst; clear H. cbn [fs after env trace].
      split; [reflexivity|]. split; [auto|]. split; [discriminate|].
      eexists. rewrite <- !app_assoc. split; [reflexivity|]. repeat constructor.
    + unfold RushCommandLineParser.catchSyncErrors. rewrite emit_run.
      intros H; inversion H; subst; clear H. cbn [fs after env trace].
      split; [reflexivity|]. split; [auto|]. split; [auto|].
      eexists. rewrite <- !app_assoc. split; [reflexivity|]. repeat constructor.
Qed.

Lemma onExecute_prepared (isLazy noLink : bool) (w w1 : World) :
  G_prepare w = (Return tt, w1) ->
  G_onExecute isLazy noLink w =
  bind (if isLazy then G_lazyInstall else (G_fullInstall ;; G_refreshMarker))
       (fun _ => G_finish noLink) w1.
Proof.
  intros H. unfold GenerateAction.onExecute.
  rewrite (bind_Return _ _ _ _ _ H). reflexivity.
Qed.


Lemma fullInstall_interrupted (w : World) (e : Error) (fs' : FileSystem) :
  install InstallType.ForceClean (fs w) = (inl e, fs') ->
  G_fullInstall w = (Throw e, after (InstallCommonModules InstallType.ForceClean) fs' w).
Proof.
  intros H. unfold GenerateAction.fullInstall. apply bind_Throw.
  rewrite call_run, H. reflexivity.
Qed.

(** C9.  The full install deletes the committed lock file before it calls
    the package manager: in the state the preparation ends in, which is
    the state [installCommonModules(InstallType.ForceClean)] is called in,
    the committed lock file does not exist.  When that install fails, its
    error ends the run at once, with the file system as the install left
    it: unless the install itself put a file back, the committed lock file
    stays absent. *)
Theorem full_install_is_not_atomic (noLink : bool) (w w1 : World) :
  G_prepare w = (Return tt, w1) ->
  Fs.existsSync committed (fs w1) = false
  /\ forall e fs',
       install InstallType.ForceClean (fs w1) = (inl e, fs') ->
       G_onExecute false noLink w
         = (Throw e, after (InstallCommonModules InstallType.ForceClean) fs' w1)
       /\ (KeepsAbsent committed (install InstallType.ForceClean) ->
           Fs.existsSync committed fs' = false).
Proof.
  intros Hprep.
  pose proof (prepare_Return _ _ Hprep) as (Hgone & _).
  split; [apply existsSync_false; exact Hgone|].
  intros e fs' Hfail. split.
  - rewrite (onExecute_prepared _ _ _ _ Hprep).
    apply bind_Throw, bind_Throw, fullInstall_interrupted. exact Hfail.
  - intros K. apply existsSync_false. specialize (K (fs w1) Hgone).
    rewrite Hfail in K. exact K.
Qed.

(** C2.  In a full install whose clean install, lock generation and copy
    went through: when the flag file is missing at the point of its
    refresh, the run ends there with the error "The install flag file is
    missing"; when it is a file, no error is raised at that point, the
    flag file is rewritten empty with the current time, and the run goes
    on with the closing step. *)
Theorem missing_marker_is_fatal (noLink : bool) (w w1 : World) :
  (G_prepare ;; G_fullInstall) w = (Return tt, w1) ->
  (Fs.existsSync marker (fs w1) = false ->
     G_onExecute false noLink w
       = (Throw (newError "The install flag file is missing"), w1))
  /\ (forall data t, entries (fs w1) !! marker = Some (File data t) ->
        let w2 := after (FsWriteFile marker "")
                        {| entries := <[marker := File "" (now (fs w1))]> (entries (fs w1));
                           now := S (now (fs w1)) |} w1 in
        G_refreshMarker w1 = (Return tt, w2)
        /\ entries (fs w2) !! marker = Some (File "" (now (fs w1)))
        /\ G_onExecute false noLink w = G_finish noLink w2).
Proof.
  intros H. apply bind_inv_Return in H as ([] & wa & Hprep & Hfull).
  rewrite (onExecute_prepared _ _ _ _ Hprep), bind_assoc, (bind_Return _ _ _ _ _ Hfull).
  split.
  - intros Hmissing. apply bind_Throw.
    unfold GenerateAction.refreshMarker, bind. rewrite existsSync_run, Hmissing.
    reflexivity.
  - intros data t Hfile w2.
    assert (Hrefresh : G_refreshMarker w1 = (Return tt, w2)).
    { unfold GenerateAction.refreshMarker, bind, Fs.existsSync, fsx.existsSync.
      cbn beta iota. unfold Fs.existsSync. rewrite Hfile.
      unfold fsx.writeFileSync. rewrite call_run. unfold Fs.writeFileSync.
      rewrite Hfile. reflexivity. }
    split; [exact Hrefresh|]. split; [apply lookup_insert_eq|].
    rewrite (bind_Return _ _ _ _ _ Hrefresh). reflexivity.
Qed.

Lemma fullInstall_Return (w w2 : World) :
  G_fullInstall w = (Return tt, w2) ->
  exists fsA fsB fsC tr,
    install InstallType.ForceClean (fs w) = (inr tt, fsA)
    /\ shrinkwrap fsA = (inr tt, fsB)
    /\ InstallManager.syncFile staging committed fsB = (inr tt, fsC)
    /\ fs w2 = fsC
    /\ env w2 = env w
    /\ trace w2 = trace w ++ [InstallCommonModules InstallType.ForceClean] ++ tr
                   ++ [ExecuteCommand (npmToolFilename cfg) npmArgs (commonTempFolder cfg)]
                   ++ [ConsoleLog (dq +:+ "npm shrinkwrap" +:+ dq +:+ " completed" +:+ os_EOL P)]
                   ++ [SyncFile staging committed]
    /\ quiet tr.
Proof.
  unfold GenerateAction.fullInstall. intros H.
  apply bind_inv_Return in H as ([] & wa & Ha & H).
  apply call_inv_Return in Ha as (fsA & HA & ->).
  apply bind_inv_Return in H as ([] & wb & Hb & H).
  apply log_inv in Hb as [_ ->].
  apply bind_inv_Return in H as ([] & wc & Hc & H).
  apply call_inv_Return in Hc as (fsB & HB & ->).
  apply bind_inv_Return in H as ([] & wd & Hd & H).
  apply log_inv in Hd as [_ ->].
  apply call_inv_Return in H as (fsC & HC & ->).
  exists fsA, fsB, fsC.
  exists [ConsoleLog (os_EOL P +:+ colors_bold P
            ("Running " +:+ dq +:+ "npm shrinkwrap" +:+ dq +:+ "..."))].
  cbn [fs after env trace] in *.
  split; [exact HA|]. split; [exact HB|]. split; [exact HC|].
  split; [reflexivity|]. split; [reflexivity|].
  split; [rewrite <- !app_assoc; reflexivity|].
  repeat constructor.
Qed.

Lemma refreshMarker_Return (w w3 : World) :
  G_refreshMarker w = (Return tt, w3) ->
  w3 = after (FsWriteFile marker "")
             {| entries := <[marker := File "" (now (fs w))]> (entries (fs w));
                now := S (now (fs w)) |} w.
Proof.
  unfold GenerateAction.refreshMarker, bind. rewrite existsSync_run.
  destruct (Fs.existsSync marker (fs w)); [|discriminate].
  unfold fsx.writeFileSync. intros H.
  apply call_inv_Return in H as (fs' & Hw & ->).
  apply writeFileSync_Return in Hw. subst. reflexivity.
Qed.

(** C3.  A full install that runs to its end did its steps in this order:
    the clean install, the package manager's lock-generation command
    ("shrinkwrap"), the copy of the staging lock file to the committed
    location (or the removal of the committed one), and straight after it
    the rewrite of the flag file, which the command had not written
    before.  With a clock that the collaborators
    respect, the flag file is then at least as new as the committed lock
    file, which, when it exists, is at least as new as the synthesized
    manifest. *)
Theorem full_install_order_and_timestamps
    (manifest : string) (noLink : bool) (w w' : World) :
  Timely (GenerateAction.rewriteConfigFiles C) ->
  Timely (InstallManager.ensureLocalNpmTool im false) ->
  Timely (InstallManager.createTempModules im) ->
  Timely (install InstallType.ForceClean) ->
  Timely shrinkwrap ->
  Preserves marker link ->
  Preserves committed link ->
  Preserves manifest link ->
  manifest <> marker ->
  wf (fs w) ->
  G_onExecute false noLink w = (Return tt, w') ->
  (exists t0 t1 t2,
      quiet (t0 ++ t1) /\
      trace w' = trace w ++ t0
                 ++ [InstallCommonModules InstallType.ForceClean] ++ t1
                 ++ [ExecuteCommand (npmToolFilename cfg) npmArgs (commonTempFolder cfg)]
                 ++ [ConsoleLog (dq +:+ "npm shrinkwrap" +:+ dq +:+ " completed" +:+ os_EOL P)]
                 ++ [SyncFile staging committed; FsWriteFile marker ""] ++ t2)
  /\ exists tm,
      entries (fs w') !! marker = Some (File "" tm)
      /\ forall lock, entries (fs w') !! committed = Some lock ->
           node_mtime lock <= tm
           /\ forall m, entries (fs w') !! manifest = Some m ->
                node_mtime m <= node_mtime lock.
Proof.
  intros T1 T2 T3 T4 T5 Pmarker Pcommitted Pmanifest Hne Hwf Hrun.
  unfold GenerateAction.onExecute in Hrun.
  apply bind_inv_Return in Hrun as ([] & w1 & Hprep & Hrun).
  apply bind_inv_Return in Hrun as ([] & w3 & Hmid & Hfin).
  apply bind_inv_Return in Hmid as ([] & w2 & Hfull & Hrefresh).
  apply prepare_Return in Hprep as (_ & _ & Hwf1 & t0 & Ht0 & Hq0).
  specialize (Hwf1 T1 T2 T3 Hwf).
  apply fullInstall_Return in Hfull
    as (fsA & fsB & fsC & t1 & HA & HB & HC & Hfs2 & _ & Ht2 & Hq1).
  assert (HwfB : wf fsB).
  { eapply Timely_run; [exact T5 | exact HB |].
    eapply Timely_run; [exact T4 | exact HA | exact Hwf1]. }
  apply syncFile_Return in HC as [HwfC Hnewest]; [|exact HwfB].
  apply refreshMarker_Return in Hrefresh. rewrite Hfs2 in Hrefresh.
  apply finish_facts in Hfin as (_ & _ & Hsame & t3 & Ht3 & _).
  specialize (Hsame eq_refl).
  split.
  - exists t0, t1, t3. split; [apply Forall_app; split; assumption|].
    rewrite Ht3, Hrefresh. cbn [trace after].
    rewrite Ht2, Ht0. rewrite <- !app_assoc. reflexivity.
  - exists (now fsC).
    rewrite (Hsame _ Pmarker), (Hsame _ Pcommitted), (Hsame _ Pmanifest), Hrefresh.
    cbn [fs after entries].
    split; [apply lookup_insert_eq|].
    intros lock Hlock.
    rewrite (lookup_insert_ne _ _ _ _ (not_eq_sym Hne)).
    apply lookup_insert_Some in Hlock as [[_ <-]|[_ Hlock]].
    + cbn [node_mtime]. split; [lia|]. intros m Hm. exact (HwfC _ _ Hm).
    + split; [exact (HwfC _ _ Hlock)|]. intros m Hm. exact (Hnewest _ Hlock _ _ Hm).
Qed.
End Generate.

(** ** The approved-packages rewrite *)

Section Governance.

Import ApprovedPackages.

Local Abbreviation below x y := (String.compare x y = Lt).

Lemma compare_refl (s : string) : String.compare s s = Eq.
Proof. apply (proj2 (String_as_OT.cmp_eq s s)). reflexivity. Qed.

Lemma below_trans (x y z : string) : below x y -> below y z -> below x z.
Proof.
  intros Hxy Hyz.
  apply String_as_OT.cmp_lt in Hxy, Hyz. apply (proj2 (String_as_OT.cmp_lt x z)).
  exact (String_as_OT.lt_trans _ _ _ Hxy Hyz).
Qed.

Lemma below_irrefl (x : string) : ~ below x x.
Proof. rewrite compare_refl. discriminate. Qed.

Lemma compare_Gt (x y : string) : String.compare x y = Gt -> below y x.
Proof. intros H. rewrite String.compare_antisym, H. reflexivity. Qed.

Lemma below_Gt (x y : string) : below y x -> String.compare x y = Gt.
Proof. intros H. rewrite String.compare_antisym, H. reflexivity. Qed.

(** *** Categories *)

Lemma insertCategory_Forall (Q : string -> Prop) (c : string) (cs : list string) :
  Q c -> Forall Q cs -> Forall Q (insertCategory c cs).
Proof.
  intros Hc. induction 1 as [|d rest Hd Hrest IH]; simpl.
  - repeat constructor. exact Hc.
  - destruct (String.compare c d); repeat constructor; assumption.
Qed.

Lemma insertCategory_ascending (c : string) (cs : list string) :
  ascending cs -> ascending (insertCategory c cs).
Proof.
  induction cs as [|d rest IH]; simpl.
  - intros _. split; [constructor | exact I].
  - intros [Hd Hrest]. destruct (String.compare c d) eqn:Hcd; simpl.
    + split; assumption.
    + split; [|split; assumption].
      constructor; [exact Hcd|].
      eapply Forall_impl; [exact Hd|]. intros y Hy. exact (below_trans _ _ _ Hcd Hy).
    + split; [|apply IH; exact Hrest].
      apply insertCategory_Forall; [apply compare_Gt; exact Hcd | exact Hd].
Qed.

Lemma elem_of_insertCategory (x c : string) (cs : list string) :
  x ∈ insertCategory c cs <-> x = c \/ x ∈ cs.
Proof.
  induction cs as [|d rest IH]; simpl.
  - rewrite !elem_of_cons. tauto.
  - destruct (String.compare c d) eqn:Hcd.
    + apply String.compare_eq_iff in Hcd. subst. rewrite !elem_of_cons. tauto.
    + rewrite !elem_of_cons. tauto.
    + rewrite !elem_of_cons, IH. tauto.
Qed.

Lemma insertCategory_known (c : string) (cs : list string) :
  ascending cs -> c ∈ cs -> insertCategory c cs = cs.
Proof.
  induction cs as [|d rest IH]; simpl; intros Hasc Hin.
  - inversion Hin.
  - destruct Hasc as [Hd Hrest]. apply elem_of_cons in Hin as [->|Hin].
    + rewrite compare_refl. reflexivity.
    + rewrite Forall_forall in Hd. rewrite (below_Gt _ _ (Hd _ Hin)).
      rewrite IH by assumption. reflexivity.
Qed.

Lemma insertCategory_lowest (c : string) (cs : list string) :
  Forall (fun y => below c y) cs -> insertCategory c cs = c :: cs.
Proof.
  destruct cs as [|d rest]; simpl; [reflexivity|].
  intros H. inversion H as [|? ? Hd _]; subst. rewrite Hd. reflexivity.
Qed.

Lemma addCategories_ascending (cats cs : list string) :
  ascending cs -> ascending (addCategories cats cs).
Proof.
  intros H. induction cats as [|c cats IH]; simpl; [exact H|].
  apply insertCategory_ascending. exact IH.
Qed.

Lemma elem_of_addCategories (x : string) (cats cs : list string) :
  x ∈ addCategories cats cs <-> x ∈ cats \/ x ∈ cs.
Proof.
  induction cats as [|c cats IH]; simpl.
  - rewrite elem_of_nil. tauto.
  - rewrite elem_of_insertCategory, IH, elem_of_cons. tauto.
Qed.

Lemma addCategories_known (cats cs : list string) :
  ascending cs -> (forall c, c ∈ cats -> c ∈ cs) -> addCategories cats cs = cs.
Proof.
  intros Hasc. induction cats as [|c cats IH]; simpl; intros Hin; [reflexivity|].
  rewrite IH by (intros x Hx; apply Hin; right; exact Hx).
  apply insertCategory_known; [exact Hasc | apply Hin; left].
Qed.

Lemma addCategories_sorted (cs : list string) :
  ascending cs -> addCategories cs [] = cs.
Proof.
  induction cs as [|c cs IH]; simpl; [reflexivity|].
  intros [Hc Hcs]. rewrite IH by exact Hcs. apply insertCategory_lowest. exact Hc.
Qed.

(** *** Entries *)

Lemma packageInfo_eta (e : packageInfo) :
  {| name := name e; allowedCategories := allowedCategories e |} = e.
Proof. destruct e. reflexivity. Qed.

Lemma approve_names_Forall (Q : string -> Prop) (pkg : string) (cats : list string)
    (l : list packageInfo) :
  Q pkg -> Forall Q (map name l) -> Forall Q (map name (approve pkg cats l)).
Proof.
  intros Hp. induction l as [|e rest IH]; simpl; intros H.
  - repeat constructor. exact Hp.
  - inversion H as [|? ? He Hrest]; subst.
    destruct (String.compare pkg (name e)); simpl; repeat constructor; auto.
Qed.

Lemma approve_ordered (pkg : string) (cats : list string) (l : list packageInfo) :
  ordered l -> ordered (approve pkg cats l).
Proof.
  unfold ordered. induction l as [|e rest IH]; simpl.
  - intros _. repeat split; repeat constructor.
    apply addCategories_ascending. exact I.
  - intros [[He Hrest] Hcats]. inversion Hcats as [|? ? Hce Hcrest]; subst.
    destruct (String.compare pkg (name e)) eqn:Hcmp; simpl.
    + repeat split; try assumption. constructor; [|exact Hcrest].
      simpl. apply addCategories_ascending. exact Hce.
    + repeat split; try assumption.
      * constructor; [exact Hcmp|].
        eapply Forall_impl; [exact He|]. intros y Hy. exact (below_trans _ _ _ Hcmp Hy).
      * constructor; [|exact Hcats]. simpl. apply addCategories_ascending. exact I.
    + destruct (IH (conj Hrest Hcrest)) as [IHn IHc].
      repeat split; try assumption.
      * apply approve_names_Forall; [apply compare_Gt; exact Hcmp | exact He].
      * constructor; assumption.
Qed.

Lemma approve_known (pkg : string) (cats : list string) (l : list packageInfo) :
  ordered l ->
  (exists e, e ∈ l /\ name e = pkg /\ forall c, c ∈ cats -> c ∈ allowedCategories e) ->
  approve pkg cats l = l.
Proof.
  unfold ordered. induction l as [|e rest IH]; simpl; intros [Hn Hc] (e0 & Hin & Hname & Hcov).
  - inversion Hin.
  - destruct Hn as [He Hrest]. inversion Hc as [|? ? Hce Hcrest]; subst.
    rewrite Forall_forall in He.
    assert (Hlater : e0 ∈ rest -> below (name e) (name e0)).
    { intros H. apply He. apply list_elem_of_fmap. exists e0. split; [reflexivity | exact H]. }
    apply elem_of_cons in Hin as [->|Hin].
    + rewrite compare_refl, addCategories_known by assumption.
      rewrite packageInfo_eta. reflexivity.
    + specialize (Hlater Hin). rewrite (below_Gt _ _ Hlater).
      rewrite IH; [reflexivity | split; assumption |].
      exists e0. repeat split; assumption.
Qed.

Lemma approve_approves (pkg c : string) (cats : list string) (l : list packageInfo) :
  c ∈ cats -> approvedFor pkg c (approve pkg cats l).
Proof.
  intros Hc. unfold approvedFor. induction l as [|e rest IH]; simpl.
  - eexists. split; [left|]. simpl. split; [reflexivity|].
    apply elem_of_addCategories. left. exact Hc.
  - destruct (String.compare pkg (name e)) eqn:Hcmp.
    + apply String.compare_eq_iff in Hcmp. eexists. split; [left|]. simpl.
      split; [congruence|]. apply elem_of_addCategories. left. exact Hc.
    + eexists. split; [left|]. simpl. split; [reflexivity|].
      apply elem_of_addCategories. left. exact Hc.
    + destruct IH as (e0 & Hin & H). exists e0. split; [right; exact Hin | exact H].
Qed.

Lemma approve_keeps (p c pkg : string) (cats : list string) (l : list packageInfo) :
  approvedFor p c l -> approvedFor p c (approve pkg cats l).
Proof.
  unfold approvedFor. induction l as [|e rest IH]; simpl; intros (e0 & Hin & Hname & Hc).
  - inversion Hin.
  - destruct (String.compare pkg (name e)) eqn:Hcmp.
    + apply elem_of_cons in Hin as [->|Hin].
      * eexists. split; [left|]. simpl. split; [exact Hname|].
        apply elem_of_addCategories. right. exact Hc.
      * exists e0. split; [right; exact Hin|]. split; assumption.
    + exists e0. split; [right; exact Hin|]. split; assumption.
    + apply elem_of_cons in Hin as [->|Hin].
      * exists e. split; [left|]. split; assumption.
      * destruct IH as (e1 & Hin1 & H1); [exists e0; repeat split; assumption|].
        exists e1. split; [right; exact Hin1 | exact H1].
Qed.

Lemma approve_names (x pkg : string) (cats : list string) (l : list packageInfo) :
  x ∈ map name (approve pkg cats l) <-> x = pkg \/ x ∈ map name l.
Proof.
  induction l as [|e rest IH]; simpl.
  - rewrite !elem_of_cons. tauto.
  - destruct (String.compare pkg (name e)) eqn:Hcmp; simpl.
    + apply String.compare_eq_iff in Hcmp. subst. rewrite !elem_of_cons. tauto.
    + rewrite !elem_of_cons. tauto.
    + rewrite !elem_of_cons, IH. tauto.
Qed.

(** *** The list as a whole *)

Lemma normalise_ordered (l : list packageInfo) : ordered (normalise l).
Proof.
  induction l as [|e rest IH]; simpl.
  - split; [exact I | constructor].
  - apply approve_ordered. exact IH.
Qed.

Lemma normalise_id (l : list packageInfo) : ordered l -> normalise l = l.
Proof.
  unfold ordered. induction l as [|e rest IH]; simpl; [reflexivity|].
  intros [[He Hrest] Hc]. inversion Hc as [|? ? Hce Hcrest]; subst.
  rewrite IH by (split; assumption).
  destruct rest as [|e' rest']; simpl.
  - rewrite addCategories_sorted by exact Hce. rewrite packageInfo_eta. reflexivity.
  - inversion He as [|? ? He' _]; subst. rewrite He'.
    rewrite addCategories_sorted by exact Hce. rewrite packageInfo_eta. reflexivity.
Qed.

Lemma normalise_keeps (l : list packageInfo) (e : packageInfo) :
  e ∈ l ->
  name e ∈ map name (normalise l)
  /\ forall c, c ∈ allowedCategories e -> approvedFor (name e) c (normalise l).
Proof.
  induction l as [|e' rest IH]; simpl; intros Hin.
  - inversion Hin.
  - apply elem_of_cons in Hin as [->|Hin].
    + split; [apply approve_names; left; reflexivity|].
      intros c Hc. apply approve_approves. exact Hc.
    + destruct (IH Hin) as [Hn Hc]. split.
      * apply approve_names. right. exact Hn.
      * intros c Hcin. apply approve_keeps, Hc. exact Hcin.
Qed.

Local Abbreviation observe :=
  (foldl (fun acc (u : usage) => approve u.1 [u.2] acc)).

Lemma observe_ordered (us : list usage) (l : list packageInfo) :
  ordered l -> ordered (observe l us).
Proof.
  revert l. induction us as [|u us IH]; simpl; intros l H; [exact H|].
  apply IH, approve_ordered, H.
Qed.

Lemma observe_keeps (us : list usage) (l : list packageInfo) (p c : string) :
  approvedFor p c l -> approvedFor p c (observe l us).
Proof.
  revert l. induction us as [|u us IH]; simpl; intros l H; [exact H|].
  apply IH, approve_keeps, H.
Qed.

Lemma observe_names (us : list usage) (l : list packageInfo) (x : string) :
  x ∈ map name l -> x ∈ map name (observe l us).
Proof.
  revert l. induction us as [|u us IH]; simpl; intros l H; [exact H|].
  apply IH, approve_names. right. exact H.
Qed.

Lemma observe_approves (us : list usage) (l : list packageInfo) (u : usage) :
  u ∈ us -> approvedFor u.1 u.2 (observe l us).
Proof.
  revert l. induction us as [|u' us IH]; simpl; intros l Hin.
  - inversion Hin.
  - apply elem_of_cons in Hin as [->|Hin].
    + apply observe_keeps, approve_approves. left.
    + apply IH. exact Hin.
Qed.

Lemma observe_known (us : list usage) (l : list packageInfo) :
  ordered l -> (forall u, u ∈ us -> approvedFor u.1 u.2 l) -> observe l us = l.
Proof.
  intros Hord. induction us as [|u us IH]; simpl; intros H; [reflexivity|].
  rewrite approve_known.
  - apply IH. intros u' Hu'. apply H. right. exact Hu'.
  - exact Hord.
  - destruct (H u) as (e & Hin & Hname & Hc); [left|].
    exists e. split; [exact Hin|]. split; [exact Hname|].
    intros c Hcin. apply list_elem_of_singleton in Hcin. subst. exact Hc.
Qed.

Lemma rewrite_ordered (existing : list packageInfo) (us : list usage) :
  ordered (rewrite existing us).
Proof. apply observe_ordered, normalise_ordered. Qed.

(** C7.  Rewriting the approved-packages list a second time, with no usage
    that the first run had not seen, gives the first run's list again, and
    so the same text, byte for byte.  The list the rewrite leaves is sorted
    by name with no name twice, each entry's categories likewise; it
    approves every observed use; and it is additive: every entry of the
    list it started from is still listed, with all of its categories. *)
Theorem rewrite_idempotent (existing : list packageInfo) (seen again : list usage) :
  (forall u, u ∈ again -> u ∈ seen) ->
  rewrite (rewrite existing seen) again = rewrite existing seen
  /\ render (rewrite (rewrite existing seen) again) = render (rewrite existing seen)
  /\ ordered (rewrite existing seen)
  /\ (forall u, u ∈ seen -> approvedFor u.1 u.2 (rewrite existing seen))
  /\ (forall e, e ∈ existing ->
        name e ∈ map name (rewrite existing seen)
        /\ forall c, c ∈ allowedCategories e ->
             approvedFor (name e) c (rewrite existing seen)).
Proof.
  intros Hsub.
  assert (Hagain : rewrite (rewrite existing seen) again = rewrite existing seen).
  { unfold rewrite at 1. rewrite normalise_id by apply rewrite_ordered.
    apply observe_known; [apply rewrite_ordered|].
    intros u Hu. apply observe_approves, Hsub, Hu. }
  split; [exact Hagain|]. split; [rewrite Hagain; reflexivity|].
  split; [apply rewrite_ordered|]. split.
  - intros u Hu. apply observe_approves, Hu.
  - intros e He. destruct (normalise_keeps _ _ He) as [Hn Hc]. split.
    + apply observe_names, Hn.
    + intros c Hcin. apply observe_keeps, Hc, Hcin.
Qed.

End Governance.

(** ** The statements on the scenario *)

Section OnTheScenario.

Import Scenario.

Lemma Timely_noop : Timely noop.
Proof. intros fs0 H. exact H. Qed.

Lemma KeepsAbsent_noop (p : string) : KeepsAbsent p noop.
Proof. intros fs0 H. exact H. Qed.

Lemma KeepsAbsent_linked (p : string) (force : bool) : KeepsAbsent p (linked force).
Proof. intros fs0 H. exact H. Qed.

Lemma Preserves_linked (p : string) (force : bool) : Preserves p (linked force).
Proof. intros fs0. reflexivity. Qed.

Lemma KeepsAbsent_writeFileSync (p q data : string) :
  p <> q -> KeepsAbsent p (Fs.writeFileSync q data).
Proof.
  intros Hne fs0 H. unfold Fs.writeFileSync.
  destruct (entries fs0 !! q) as [[d t|t]|]; simpl; try exact H;
    rewrite lookup_insert_ne by congruence; exact H.
Qed.

Lemma wf_committed : wf (fs committed).
Proof.
  intros p n H.
  change (({[ lockPath := File "{ old lock }" 3 ]} : gmap string Node) !! p = Some n) in H.
  apply lookup_singleton_Some in H as [_ <-]. simpl. lia.
Qed.

Lemma unlinked_flagged : unlinked posix config (fs flagged).
Proof.
  intros p Hp. repeat (apply elem_of_cons in Hp as [->|Hp]); try reflexivity.
  inversion Hp.
Qed.



Lemma missing_marker_is_fatal_witness :
  (GenerateAction.prepare posix parser forgetful ;;
   GenerateAction.fullInstall posix parser forgetful) committed
    = (Return tt, installed forgetful)
  /\ Fs.existsSync marker (fs (installed forgetful)) = false
  /\ generate forgetful false committed = (Throw missingFlag, installed forgetful).
Proof.
  assert (H1 : (GenerateAction.prepare posix parser forgetful ;;
                GenerateAction.fullInstall posix parser forgetful) committed
               = (Return tt, installed forgetful)) by (vm_compute; reflexivity).
  assert (H2 : Fs.existsSync marker (fs (installed forgetful)) = false)
    by (vm_compute; reflexivity).
  split; [exact H1|]. split; [exact H2|].
  exact (proj1 (missing_marker_is_fatal posix parser forgetful false committed
                  (installed forgetful) H1) H2).
Defined.

Lemma full_install_order_and_timestamps_witness :
  Timely (GenerateAction.rewriteConfigFiles collaborators)
  /\ Timely (InstallManager.ensureLocalNpmTool manager false)
  /\ Timely (InstallManager.createTempModules manager)
  /\ Timely (InstallManager.installCommonModules manager InstallType.ForceClean)
  /\ Timely (npm (npmToolFilename config)
                 (InstallManager.pushConfigurationNpmArgs manager ["shrinkwrap"])
                 (commonTempFolder config))
  /\ Preserves marker (linked true)
  /\ Preserves lockPath (linked true)
  /\ Preserves manifest (linked true)
  /\ manifest <> marker
  /\ wf (fs committed)
  /\ generate collaborators false committed = (Return tt, fullRun)
  /\ exists tm,
       entries (fs fullRun) !! marker = Some (File "" tm)
       /\ forall lock, entries (fs fullRun) !! lockPath = Some lock ->
            node_mtime lock <= tm
            /\ forall m, entries (fs fullRun) !! manifest = Some m ->
                 node_mtime m <= node_mtime lock.
Proof.
  assert (T1 : Timely (GenerateAction.rewriteConfigFiles collaborators))
    by apply Timely_noop.
  assert (T2 : Timely (InstallManager.ensureLocalNpmTool manager false))
    by apply Timely_noop.
  assert (T3 : Timely (InstallManager.createTempModules manager))
    by apply Timely_writeFileSync.
  assert (T4 : Timely (InstallManager.installCommonModules manager InstallType.ForceClean))
    by apply Timely_writeFileSync.
  assert (T5 : Timely (npm (npmToolFilename config)
                 (InstallManager.pushConfigurationNpmArgs manager ["shrinkwrap"])
                 (commonTempFolder config)))
    by apply Timely_writeFileSync.
  assert (P1 : Preserves marker (linked true)) by apply Preserves_linked.
  assert (P2 : Preserves lockPath (linked true)) by apply Preserves_linked.
  assert (P3 : Preserves manifest (linked true)) by apply Preserves_linked.
  assert (N : manifest <> marker) by discriminate.
  assert (H : generate collaborators false committed = (Return tt, fullRun))
    by (vm_compute; reflexivity).
  split; [exact T1|]. split; [exact T2|]. split; [exact T3|]. split; [exact T4|].
  split; [exact T5|]. split; [exact P1|]. split; [exact P2|]. split; [exact P3|].
  split; [exact N|]. split; [exact wf_committed|]. split; [exact H|].
  exact (proj2 (full_install_order_and_timestamps posix parser collaborators manifest
                  false committed fullRun T1 T2 T3 T4 T5 P1 P2 P3 N wf_committed H)).
Defined.

Lemma full_install_is_not_atomic_witness :
  GenerateAction.prepare posix parser failing committed = (Return tt, prepared failing)
  /\ entries (fs committed) !! lockPath = Some (File "{ old lock }" 3)
  /\ Fs.existsSync lockPath (fs (prepared failing)) = false
  /\ generate failing false committed
     = (Throw toolError,
        after (InstallCommonModules InstallType.ForceClean)
              (fs (prepared failing)) (prepared failing))
  /\ Fs.existsSync lockPath (fs (generate failing false committed).2) = false.
Proof.
  assert (H1 : GenerateAction.prepare posix parser failing committed
               = (Return tt, prepared failing)) by (vm_compute; reflexivity).
  assert (H2 : InstallManager.installCommonModules failingManager InstallType.ForceClean
                 (fs (prepared failing)) = (inl toolError, fs (prepared failing)))
    by reflexivity.
  assert (K : KeepsAbsent lockPath
                (InstallManager.installCommonModules failingManager InstallType.ForceClean))
    by (intros fs0 H0; exact H0).
  pose proof (full_install_is_not_atomic posix parser failing false committed
                (prepared failing) H1) as [Hgone Hfail].
  destruct (Hfail toolError (fs (prepared failing)) H2) as [Hrun Hstill].
  split; [exact H1|]. split; [vm_compute; reflexivity|]. split; [exact Hgone|].
  split; [exact Hrun|]. unfold generate. rewrite Hrun. exact (Hstill K).
Defined.


(** C4: with no [node_modules] folder anywhere but the link flag file in
    place, [unlink] reports "Nothing to do." and deletes the flag file. *)
Lemma unlink_deletes_the_flag_file :
  Forall (fun p => Fs.existsSync (localModuleFolder posix p) (fs flagged) = false)
         (projects config)
  /\ (UnlinkAction.onExecute posix config flagged).1 = Return tt
  /\ last (trace (UnlinkAction.onExecute posix config flagged).2)
     = Some (ConsoleLog "Nothing to do.")
  /\ entries (fs flagged) !! flagPath = Some (File "{}" 2)
  /\ entries (fs (UnlinkAction.onExecute posix config flagged).2) !! flagPath = None.
Proof. vm_compute. repeat split; repeat constructor. Qed.

Lemma unlink_idempotent_witness :
  unlinked posix config (fs flagged)
  /\ exists w',
       UnlinkAction.onExecute posix config flagged = (Return tt, w')
       /\ last (trace w') = Some (ConsoleLog "Nothing to do.")
       /\ fs w' = (Utilities.deleteFile flagPath (fs flagged)).2
       /\ (Fs.existsSync flagPath (fs flagged) = false -> fs w' = fs flagged).
Proof.
  split; [exact unlinked_flagged|].
  exact (proj1 (unlink_idempotent posix config) flagged unlinked_flagged).
Defined.

(** C5: initialising the command layer changes the process's [PATH]. *)
Lemma ensureEnvironment_changes_the_process_environment :
  env committed !! "PATH" = Some "/usr/bin"
  /\ env (RushCommandLineParser._ensureEnvironment posix parser committed).2 !! "PATH"
     = Some "/repo/common/temp/node_modules/.bin:/usr/bin".
Proof. vm_compute. split; reflexivity. Qed.

Lemma rewrite_idempotent_witness :
  (forall u, u ∈ again -> u ∈ seen)
  /\ ApprovedPackages.rewrite (ApprovedPackages.rewrite approved seen) again
     = ApprovedPackages.rewrite approved seen
  /\ ApprovedPackages.render
       (ApprovedPackages.rewrite (ApprovedPackages.rewrite approved seen) again)
     = ApprovedPackages.render (ApprovedPackages.rewrite approved seen).
Proof.
  assert (H : forall u, u ∈ again -> u ∈ seen).
  { intros u Hu. unfold again in Hu. unfold seen.
    repeat (apply elem_of_cons in Hu as [->|Hu]); [| |inversion Hu];
      repeat constructor. }
  pose proof (rewrite_idempotent approved seen again H) as (H1 & H2 & _).
  split; [exact H|]. split; [exact H1 | exact H2].
Defined.

End OnTheScenario.

(* ================================================================== *)
(** * Part III: further properties of the same code                    *)
(* ================================================================== *)

(** ** What a run may record *)

Create HintDb emits discriminated.

Lemma Emits_ret {A} (ok : Event -> bool) (a : A) : Emits ok (ret a).
Proof.
  intros w r w' H. inversion H; subst. split; [reflexivity|].
  exists []. rewrite app_nil_r. split; [reflexivity | constructor].
Qed.

Lemma Emits_throw {A} (ok : Event -> bool) (e : Error) : Emits ok (@throw A e).
Proof.
  intros w r w' H. inversion H; subst. split; [reflexivity|].
  exists []. rewrite app_nil_r. split; [reflexivity | constructor].
Qed.

Lemma Emits_emit (ok : Event -> bool) (ev : Event) : ok ev = true -> Emits ok (emit ev).
Proof.
  intros Hok w r w' H. inversion H; subst. split; [reflexivity|].
  exists [ev]. split; [reflexivity | repeat constructor; exact Hok].
Qed.

Lemma Emits_liftFs {A} (ok : Event -> bool) (c : Effect A) : Emits ok (liftFs c).
Proof.
  intros w r w' H. unfold liftFs in H.
  destruct (c (fs w)) as [[e|a] fs']; inversion H; subst; (split; [reflexivity|]);
    exists []; rewrite app_nil_r; (split; [reflexivity | constructor]).
Qed.

Lemma Emits_bind {A B} (ok : Event -> bool) (m : M A) (k : A -> M B) :
  Emits ok m -> (forall a, Emits ok (k a)) -> Emits ok (bind m k).
Proof.
  intros Hm Hk w r w' H. unfold bind in H.
  destruct (m w) as [[a|e|c] w1] eqn:Hrun;
    destruct (Hm _ _ _ Hrun) as (Henv & tr & Htr & Hok).
  - destruct (Hk a _ _ _ H) as (Henv' & tr' & Htr' & Hok').
    split; [congruence|]. exists (tr ++ tr'). rewrite Htr', Htr, app_assoc.
    split; [reflexivity | apply Forall_app; split; assumption].
  - inversion H; subst. split; [exact Henv|]. exists tr. split; assumption.
  - inversion H; subst. split; [exact Henv|]. exists tr. split; assumption.
Qed.

Lemma Emits_call {A} (ok : Event -> bool) (ev : Event) (c : Effect A) :
  ok ev = true -> Emits ok (call ev c).
Proof.
  intros Hok. unfold call. apply Emits_bind; [apply Emits_emit; exact Hok|].
  intros _. apply Emits_liftFs.
Qed.

Lemma Emits_existsSync (ok : Event -> bool) (p : string) : Emits ok (fsx.existsSync p).
Proof.
  intros w r w' H. inversion H; subst. split; [reflexivity|].
  exists []. rewrite app_nil_r. split; [reflexivity | constructor].
Qed.

Lemma Emits_if {A} (ok : Event -> bool) (b : bool) (m1 m2 : M A) :
  Emits ok m1 -> Emits ok m2 -> Emits ok (if b then m1 else m2).
Proof. destruct b; auto. Qed.

Lemma Emits_exit {A} (ok : Event -> bool) (code : Z) :
  ok (ProcessExit code) = true -> Emits ok (@process.exit A code).
Proof.
  intros Hok w r w' H. inversion H; subst. split; [reflexivity|].
  exists [ProcessExit code]. split; [reflexivity | repeat constructor; exact Hok].
Qed.

Lemma Emits_try_finally {A} (ok : Event -> bool) (m : M A) (f : M unit) :
  Emits ok m -> Emits ok f -> Emits ok (try_finally m f).
Proof.
  intros Hm Hf w r w' H. unfold try_finally in H.
  destruct (m w) as [r1 w1] eqn:Hrun.
  destruct (Hm _ _ _ Hrun) as (Henv & tr & Htr & Hok).
  assert (Hthen : forall r2 w2, f w1 = (r2, w2) ->
            env w2 = env w
            /\ exists tr0, trace w2 = trace w ++ tr0 /\ Forall (fun ev => ok ev = true) tr0).
  { intros r2 w2 Hrun2. destruct (Hf _ _ _ Hrun2) as (Henv' & tr' & Htr' & Hok').
    split; [congruence|]. exists (tr ++ tr'). rewrite Htr', Htr, app_assoc.
    split; [reflexivity | apply Forall_app; split; assumption]. }
  destruct r1 as [a|e|c].
  - destruct (f w1) as [[[]|e'|c'] w2] eqn:Hrun2; inversion H; subst; eapply Hthen; reflexivity.
  - destruct (f w1) as [[[]|e'|c'] w2] eqn:Hrun2; inversion H; subst; eapply Hthen; reflexivity.
  - inversion H; subst. split; [exact Henv|]. exists tr. split; assumption.
Qed.

Lemma Emits_weaken {A} (ok ok' : Event -> bool) (m : M A) :
  (forall ev, ok ev = true -> ok' ev = true) -> Emits ok m -> Emits ok' m.
Proof.
  intros Hsub Hm w r w' H. destruct (Hm _ _ _ H) as (Henv & tr & Htr & Hok).
  split; [exact Henv|]. exists tr. split; [exact Htr|].
  eapply Forall_impl; [exact Hok|]. exact Hsub.
Qed.

#[local] Hint Resolve Emits_ret Emits_throw Emits_liftFs Emits_existsSync : emits.
#[local] Hint Extern 1 (Emits _ (bind _ _)) => apply Emits_bind; [|intros ?] : emits.
#[local] Hint Extern 1 (Emits _ (if _ then _ else _)) => apply Emits_if : emits.
#[local] Hint Extern 1 (Emits _ (emit _)) => apply Emits_emit; reflexivity : emits.
#[local] Hint Extern 1 (Emits _ (console.log _)) => apply Emits_emit; reflexivity : emits.
#[local] Hint Extern 1 (Emits _ (console.error _)) => apply Emits_emit; reflexivity : emits.
#[local] Hint Extern 1 (Emits _ (call _ _)) => apply Emits_call; reflexivity : emits.
#[local] Hint Extern 1 (Emits _ (fsx.unlinkSync _)) => apply Emits_call; reflexivity : emits.
#[local] Hint Extern 1 (Emits _ (fsx.writeFileSync _ _)) => apply Emits_call; reflexivity : emits.
#[local] Hint Extern 1 (Emits _ (process.exit _)) => apply Emits_exit; reflexivity : emits.
#[local] Hint Extern 1 (Emits _ (try_finally _ _)) => apply Emits_try_finally : emits.

Ltac emits := auto 30 with emits.

Section GenerateRuns.

Variable P : Platform.
Variable parser : RushCommandLineParser.t.
Variable C : GenerateAction.Collaborators.

Local Abbreviation cfg := (RushCommandLineParser.rushConfiguration parser).
Local Abbreviation im := (GenerateAction.installManager C).
Local Abbreviation committed := (committedShrinkwrapFilename cfg).
Local Abbreviation staging := (tempShrinkwrapFilename cfg).
Local Abbreviation marker := (InstallManager.commonNodeModulesMarkerFilename im).
Local Abbreviation install := (InstallManager.installCommonModules im).
Local Abbreviation npmArgs := (InstallManager.pushConfigurationNpmArgs im ["shrinkwrap"]).
Local Abbreviation shrinkwrap :=
  (GenerateAction.executeCommand C (npmToolFilename cfg) npmArgs (commonTempFolder cfg)).
Local Abbreviation link := (GenerateAction.createSymlinksForProjects C true).
Local Abbreviation G_onExecute := (GenerateAction.onExecute P parser C).
Local Abbreviation G_installPart := (installPart P parser C).

Lemma Emits_prepare (isLazy : bool) :
  Emits (installOnly isLazy) (GenerateAction.prepare P parser C).
Proof.
  unfold GenerateAction.prepare, GenerateAction.deleteShrinkwrapFiles.
  destruct isLazy; emits.
Qed.

Lemma Emits_installPart (isLazy : bool) : Emits (installOnly isLazy) (G_installPart isLazy).
Proof.
  unfold installPart. apply Emits_bind; [apply Emits_prepare|]. intros _.
  destruct isLazy.
  - unfold GenerateAction.lazyInstall. emits.
  - unfold GenerateAction.fullInstall, GenerateAction.refreshMarker. emits.
Qed.

Lemma Emits_finish (isLazy noLink : bool) :
  Emits (if noLink then installOnly isLazy else modeEvent isLazy)
        (GenerateAction.finish P parser C noLink).
Proof.
  unfold GenerateAction.finish, RushCommandLineParser.catchSyncErrors.
  destruct noLink, isLazy; cbn [negb]; emits.
Qed.

Lemma onExecute_split (isLazy noLink : bool) (w : World) :
  G_onExecute isLazy noLink w =
  bind (G_installPart isLazy) (fun _ => GenerateAction.finish P parser C noLink) w.
Proof.
  unfold GenerateAction.onExecute, installPart. rewrite bind_assoc. reflexivity.
Qed.

Lemma installOnly_modeEvent (isLazy : bool) (ev : Event) :
  installOnly isLazy ev = true -> modeEvent isLazy ev = true.
Proof. unfold installOnly. intros H. apply andb_prop in H as [_ H]. exact H. Qed.

Lemma installOnly_no_link (isLazy force : bool) (tr : list Event) :
  Forall (fun ev => installOnly isLazy ev = true) tr ->
  CreateSymlinksForProjects force ∈ tr -> False.
Proof.
  intros Hall Hin. rewrite Forall_forall in Hall. specialize (Hall _ Hin). discriminate.
Qed.

(** X3.  What a run of "rush generate" itself calls, however the run
    ends, is what its mode admits: the install it asks for is incremental
    in the lazy mode and clean in the full mode, and only the full mode
    runs "npm shrinkwrap", copies the lock file or writes the flag file.
    The link step is reached only without [--no-link] and only after the
    whole install part returned, and it is a forced link. *)
Theorem generate_keeps_to_its_mode
    (isLazy noLink : bool) (w w' : World) (r : Completion unit) :
  G_onExecute isLazy noLink w = (r, w') ->
  exists tr,
    trace w' = trace w ++ tr
    /\ Forall (fun ev => modeEvent isLazy ev = true) tr
    /\ (forall force, CreateSymlinksForProjects force ∈ tr ->
          noLink = false /\ force = true
          /\ exists w3, G_installPart isLazy w = (Return tt, w3)).
Proof.
  rewrite onExecute_split. unfold bind. intros H.
  destruct (G_installPart isLazy w) as [r1 w3] eqn:Hpart.
  destruct (Emits_installPart isLazy _ _ _ Hpart) as (_ & tr1 & Htr1 & Hok1).
  assert (Hmode1 : Forall (fun ev => modeEvent isLazy ev = true) tr1).
  { eapply Forall_impl; [exact Hok1|]. apply installOnly_modeEvent. }
  destruct r1 as [[]|e|c].
  - destruct (Emits_finish isLazy noLink _ _ _ H) as (_ & tr2 & Htr2 & Hok2).
    exists (tr1 ++ tr2). rewrite Htr2, Htr1, app_assoc.
    split; [reflexivity|]. split.
    + apply Forall_app. split; [exact Hmode1|].
      destruct noLink; [|exact Hok2].
      eapply Forall_impl; [exact Hok2|]. apply installOnly_modeEvent.
    + intros force Hin. apply elem_of_app in Hin as [Hin|Hin];
        [destruct (installOnly_no_link _ _ _ Hok1 Hin)|].
      destruct noLink; [destruct (installOnly_no_link _ _ _ Hok2 Hin)|].
      split; [reflexivity|]. split; [|exists w3; reflexivity].
      rewrite Forall_forall in Hok2. exact (Hok2 _ Hin).
  - inversion H; subst. exists tr1. split; [exact Htr1|].
    split; [exact Hmode1|]. intros force Hin.
    destruct (installOnly_no_link _ _ _ Hok1 Hin).
  - inversion H; subst. exists tr1. split; [exact Htr1|].
    split; [exact Hmode1|]. intros force Hin.
    destruct (installOnly_no_link _ _ _ Hok1 Hin).
Qed.

Lemma caught_installOnly (isLazy : bool) (tr : list Event) :
  Forall (fun ev => installOnly isLazy ev = true) tr -> Node.caught tr = [].
Proof.
  induction 1 as [|ev tr Hev _ IH]; [reflexivity|].
  destruct ev; try exact IH. discriminate.
Qed.

(** X4.  How "rush generate" ends once its install part is through,
    without [--no-link]: the closing message is printed and the link step
    is called with [force = true]; an error the link step throws ends the
    command with that error; a promise it returns is handed to
    [catchSyncErrors] and the command returns, whatever the promise's
    state.  A rejection is reported only later: under the command-line
    parser the telemetry is flushed first, and once the script has run to
    its end the handler prints the error and the process exits with
    code 1. *)
Theorem generate_ends_as_the_link_step_does (isLazy : bool) (w w3 : World) :
  G_installPart isLazy w = (Return tt, w3) ->
  G_onExecute isLazy false w
    = match link (fs w3) with
      | (inl e, fs') => (Throw e, closed P w3 fs')
      | (inr promise, fs') =>
          (Return tt, after (PromiseCatch promise) fs' (closed P w3 fs'))
      end
  /\ (forall e fs' fs'',
        link (fs w3) = (inr (Rejected e), fs') ->
        RushCommandLineParser.telemetry_flush parser fs' = (inr tt, fs'') ->
        Node.caught (trace w) = [] ->
        Node.runToEnd (RushCommandLineParser.onRejected P parser)
          (RushCommandLineParser.onExecute P parser (G_onExecute isLazy false)) w
        = (1%Z,
           reported P parser e
             (after TelemetryFlush fs''
                (after (PromiseCatch (Rejected e)) fs' (closed P w3 fs'))))).
Proof.
  intros Hpart.
  assert (Hrun : G_onExecute isLazy false w
            = match link (fs w3) with
              | (inl e, fs') => (Throw e, closed P w3 fs')
              | (inr promise, fs') =>
                  (Return tt, after (PromiseCatch promise) fs' (closed P w3 fs'))
              end).
  { rewrite onExecute_split, (bind_Return _ _ _ _ _ Hpart).
    unfold GenerateAction.finish, bind at 1, console.log. rewrite emit_run. cbn [negb].
    unfold bind. rewrite call_run. cbn [fs after].
    destruct (link (fs w3)) as [[e|promise] fs']; reflexivity. }
  split; [exact Hrun|].
  intros e fs' fs'' Hlink Hflush Hnone. rewrite Hlink in Hrun.
  destruct (Emits_installPart isLazy _ _ _ Hpart) as (_ & tr1 & Htr1 & Hok1).
  set (w4 := after (PromiseCatch (Rejected e)) fs' (closed P w3 fs')) in *.
  assert (Hmain : RushCommandLineParser.onExecute P parser (G_onExecute isLazy false) w
                  = (Return tt, after TelemetryFlush fs'' w4)).
  { unfold RushCommandLineParser.onExecute, try_catch.
    destruct (RushCommandLineParser.debugParameter parser);
      rewrite (bind_Return _ _ _ _ _ Hrun), call_run; cbn [fs after w4];
      rewrite Hflush; reflexivity. }
  assert (Hcaught : Node.caught (trace (after TelemetryFlush fs'' w4)) = [e]).
  { cbn [trace after w4 closed]. rewrite Htr1, !caught_app, Hnone.
    rewrite (caught_installOnly _ _ Hok1). reflexivity. }
  unfold Node.runToEnd, Node.run. rewrite (bind_Return _ _ _ _ _ Hmain), Hcaught.
  cbn [Node.deliver]. unfold RushCommandLineParser.onRejected.
  rewrite exitAndReportError_run. reflexivity.
Qed.

Lemma deleteShrinkwrapFiles_entries (w w1 : World) :
  GenerateAction.deleteShrinkwrapFiles P parser w = (Return tt, w1) ->
  entries (fs w1) = delete staging (delete committed (entries (fs w))).
Proof.
  unfold GenerateAction.deleteShrinkwrapFiles. intros H.
  apply bind_inv_Return in H as ([] & wa & Ha & Hb).
  assert (Hfirst : entries (fs wa) = delete committed (entries (fs w))).
  { unfold bind at 1 in Ha. rewrite existsSync_run in Ha.
    destruct (Fs.existsSync committed (fs w)) eqn:Hex.
    - apply bind_inv_Return in Ha as ([] & wl & Hl & Hu).
      apply log_inv in Hl as [_ ->]. apply unlinkSync_inv in Hu. subst. reflexivity.
    - inversion Ha; subst. symmetry. apply delete_id, existsSync_false, Hex. }
  unfold bind at 1 in Hb. rewrite existsSync_run in Hb.
  destruct (Fs.existsSync staging (fs wa)) eqn:Hex.
  - apply unlinkSync_inv in Hb. subst. cbn [fs after entries]. rewrite Hfirst. reflexivity.
  - inversion Hb; subst. rewrite <- Hfirst. symmetry.
    apply delete_id, existsSync_false, Hex.
Qed.

(** X7.  The preparation of "rush generate" returns only when the approved
    packages were rewritten, the npm tool was checked and the temporary
    modules were created, in this order and each without an error; what it
    then takes from the file system is the two copies of the lock file, the
    committed one and the staging one, and nothing else. *)
Theorem preparation_removes_the_lock_files_only (w w1 : World) :
  GenerateAction.prepare P parser C w = (Return tt, w1) ->
  exists fsA fsB fsC,
    GenerateAction.rewriteConfigFiles C (fs w) = (inr tt, fsA)
    /\ InstallManager.ensureLocalNpmTool im false fsA = (inr tt, fsB)
    /\ InstallManager.createTempModules im fsB = (inr tt, fsC)
    /\ entries (fs w1) = delete staging (delete committed (entries fsC)).
Proof.
  unfold GenerateAction.prepare. intros H.
  apply bind_inv_Return in H as ([] & wa & Ha & H).
  apply call_inv_Return in Ha as (fsA & HA & ->).
  apply bind_inv_Return in H as ([] & wb & Hb & H).
  apply log_inv in Hb as [_ ->].
  apply bind_inv_Return in H as ([] & wc & Hc & H).
  apply call_inv_Return in Hc as (fsB & HB & ->).
  apply bind_inv_Return in H as ([] & wd & Hd & H).
  apply call_inv_Return in Hd as (fsC & HC & ->).
  apply deleteShrinkwrapFiles_entries in H.
  exists fsA, fsB, fsC. repeat split; assumption.
Qed.

(** X5.  When "npm shrinkwrap" fails in a full install, its error ends the run
    there: after the clean install and the command nothing more is
    recorded, so the lock file is not copied, the flag file is not
    rewritten and nothing is linked; the file system is as the command left
    it, and unless the install or the command put one there, there is no
    committed lock file. *)
Theorem failed_lock_generation_ends_the_run
    (noLink : bool) (w w1 : World) (fsA fsB : FileSystem) (e : Error) :
  GenerateAction.prepare P parser C w = (Return tt, w1) ->
  install InstallType.ForceClean (fs w1) = (inr tt, fsA) ->
  shrinkwrap fsA = (inl e, fsB) ->
  exists w' line,
    G_onExecute false noLink w = (Throw e, w')
    /\ fs w' = fsB
    /\ trace w' = trace w1 ++
         [InstallCommonModules InstallType.ForceClean; ConsoleLog line;
          ExecuteCommand (npmToolFilename cfg) npmArgs (commonTempFolder cfg)]
    /\ (KeepsAbsent committed (install InstallType.ForceClean) ->
        KeepsAbsent committed shrinkwrap ->
        Fs.existsSync committed fsB = false).
Proof.
  intros Hprep HA HB.
  pose proof (prepare_Return _ _ _ _ _ Hprep) as (Hgone & _).
  rewrite (onExecute_prepared _ _ _ _ _ _ _ Hprep).
  assert (Hfull : exists w' line,
            GenerateAction.fullInstall P parser C w1 = (Throw e, w')
            /\ fs w' = fsB
            /\ trace w' = trace w1 ++
                 [InstallCommonModules InstallType.ForceClean; ConsoleLog line;
                  ExecuteCommand (npmToolFilename cfg) npmArgs (commonTempFolder cfg)]).
  { unfold GenerateAction.fullInstall, bind at 1. rewrite call_run, HA.
    unfold bind at 1, console.log at 1. rewrite emit_run.
    unfold bind at 1. rewrite call_run. cbn [fs after]. rewrite HB.
    eexists; eexists. split; [reflexivity|]. split; [reflexivity|].
    cbn [trace after]. rewrite <- !app_assoc. reflexivity. }
  destruct Hfull as (w' & line & Hrun & Hfs & Htr).
  exists w', line. split; [apply bind_Throw, bind_Throw; exact Hrun|].
  split; [exact Hfs|]. split; [exact Htr|].
  intros K1 K2. apply existsSync_false.
  specialize (K1 _ Hgone). rewrite HA in K1. cbn [snd] in K1.
  specialize (K2 _ K1). rewrite HB in K2. exact K2.
Qed.

Lemma syncFile_copies (src dst : string) (fs0 fs1 : FileSystem) :
  InstallManager.syncFile src dst fs0 = (inr tt, fs1) ->
  match entries fs0 !! src with
  | Some (File data _) => entries fs1 !! dst = Some (File data (now fs0))
  | Some (Folder _) => False
  | None => entries fs1 !! dst = None
  end.
Proof.
  unfold InstallManager.syncFile. intros H.
  destruct (entries fs0 !! src) as [[data t|t]|] eqn:Hsrc.
  - destruct (entries fs0 !! dst) as [[d' t'|t']|] eqn:Hdst;
      inversion H; subst; clear H; cbn [entries]; apply lookup_insert_eq.
  - discriminate.
  - destruct (entries fs0 !! dst) as [n|] eqn:Hdst; inversion H; subst; clear H.
    + cbn [entries]. apply lookup_delete_eq.
    + exact Hdst.
Qed.

(** X6.  After a full install that ran to its end, the committed lock file
    is a copy of the staging lock file as "npm shrinkwrap" left it: it has
    that file's content when the command left one, and does not exist when
    the command left none (the flag file being a file of its own, and the
    link step leaving the committed lock file alone). *)
Theorem committed_lock_mirrors_the_staging_lock (noLink : bool) (w w' : World) :
  Preserves committed link ->
  marker <> committed ->
  G_onExecute false noLink w = (Return tt, w') ->
  exists w1 fsA fsB,
    GenerateAction.prepare P parser C w = (Return tt, w1)
    /\ install InstallType.ForceClean (fs w1) = (inr tt, fsA)
    /\ shrinkwrap fsA = (inr tt, fsB)
    /\ match entries fsB !! staging with
       | Some (File data _) =>
           exists t, entries (fs w') !! committed = Some (File data t)
       | Some (Folder _) => False
       | None => entries (fs w') !! committed = None
       end.
Proof.
  intros Pc Hmc Hrun.
  unfold GenerateAction.onExecute in Hrun.
  apply bind_inv_Return in Hrun as ([] & w1 & Hprep & Hrun).
  apply bind_inv_Return in Hrun as ([] & w3 & Hmid & Hfin).
  apply bind_inv_Return in Hmid as ([] & w2 & Hfull & Hrefresh).
  apply fullInstall_Return in Hfull
    as (fsA & fsB & fsC & t1 & HA & HB & HC & Hfs2 & _).
  apply syncFile_copies in HC.
  apply refreshMarker_Return in Hrefresh. rewrite Hfs2 in Hrefresh.
  apply finish_facts in Hfin as (_ & _ & Hsame & _). specialize (Hsame eq_refl).
  exists w1, fsA, fsB. split; [exact Hprep|]. split; [exact HA|]. split; [exact HB|].
  rewrite (Hsame _ Pc), Hrefresh. cbn [fs after entries].
  rewrite lookup_insert_ne by exact Hmc.
  destruct (entries fsB !! staging) as [[data t|t]|]; [|exact HC..].
  exists (now fsB). exact HC.
Qed.

End GenerateRuns.

(** ** The command layer around an action that does not throw *)

Section ParserRuns.

Variable P : Platform.
Variable this : RushCommandLineParser.t.

Local Abbreviation flush := (RushCommandLineParser.telemetry_flush this).

(** X2.  When the selected action returns, [onExecute] flushes the telemetry
    once and returns; a flush that throws is an error like any other: with
    [--debug] it escapes, without it is reported and the process exits
    with code 1 (after [exitWithError] tried the flush a second time).
    When the action itself ended the process through [process.exit], the
    telemetry is not flushed and nothing is reported. *)
Theorem onExecute_after_the_action (action : M unit) (w w1 : World) :
  (action w = (Return tt, w1) ->
     RushCommandLineParser.onExecute P this action w =
     match flush (fs w1) with
     | (inr _, fs') => (Return tt, after TelemetryFlush fs' w1)
     | (inl e, fs') =>
         if RushCommandLineParser.debugParameter this
         then (Throw e, after TelemetryFlush fs' w1)
         else (Exit 1%Z, reported P this e (after TelemetryFlush fs' w1))
     end)
  /\ (forall code, action w = (Exit code, w1) ->
        RushCommandLineParser.onExecute P this action w = (Exit code, w1)).
Proof.
  split.
  - intros Hact. unfold RushCommandLineParser.onExecute.
    destruct (RushCommandLineParser.debugParameter this).
    + rewrite (bind_Return _ _ _ _ _ Hact), call_run.
      destruct (flush (fs w1)) as [[e|[]] fs']; reflexivity.
    + unfold try_catch. rewrite (bind_Return _ _ _ _ _ Hact), call_run.
      destruct (flush (fs w1)) as [[e|[]] fs']; [|reflexivity].
      apply exitAndReportError_run.
  - intros code Hact. unfold RushCommandLineParser.onExecute, try_catch, bind.
    destruct (RushCommandLineParser.debugParameter this); rewrite Hact; reflexivity.
Qed.

End ParserRuns.

(** ** The approved-packages schema *)

Section SchemaFacts.
Import Json JsonSchema ApprovedPackagesSchema.

(** What it takes for an object to pass a closed object schema. *)
Lemma object_valid (properties : list (string * schema)) (required : list string)
    (m : gmap string value) :
  validate (ObjectOf properties required false) (Object m) = true <->
  (forall k s x, (k, s) ∈ properties -> m !! k = Some x -> validate s x = true)
  /\ (forall k, k ∈ required -> is_Some (m !! k))
  /\ (forall k, is_Some (m !! k) -> k ∈ map fst properties).
Proof.
  change (validate (ObjectOf properties required false) (Object m)) with
    (forallb (fun p : string * schema =>
                match m !! p.1 with Some x => validate p.2 x | None => true end) properties
     && forallb (fun k => bool_decide (is_Some (m !! k))) required
     && (false || bool_decide (dom m ⊆ list_to_set (map fst properties)))).
  rewrite !andb_true_iff, !forallb_forall, orb_false_l, bool_decide_eq_true.
  split.
  - intros [[Hp Hr] Hd]. split; [|split].
    + intros k s x Hin Hk. apply list_elem_of_In, Hp in Hin. simpl in Hin.
      rewrite Hk in Hin. exact Hin.
    + intros k Hin. apply list_elem_of_In, Hr, bool_decide_eq_true in Hin. exact Hin.
    + intros k Hk. apply elem_of_dom, Hd, elem_of_list_to_set in Hk. exact Hk.
  - intros (Hp & Hr & Hd). split; [split|].
    + intros [k s] Hin. simpl. destruct (m !! k) as [x|] eqn:Hk; [|reflexivity].
      apply (Hp k s x); [apply list_elem_of_In; exact Hin | exact Hk].
    + intros k Hin. apply bool_decide_eq_true, Hr, list_elem_of_In, Hin.
    + intros k Hk. apply elem_of_list_to_set, Hd, elem_of_dom, Hk.
Qed.

Lemma strings_decode (vs : list value) :
  forallb (validate String_) vs = true -> exists cs, vs = map Str cs.
Proof.
  induction vs as [|v vs IH]; simpl; intros H.
  - exists []. reflexivity.
  - apply andb_prop in H as [Hv Hvs]. destruct (IH Hvs) as [cs ->].
    destruct v; try discriminate. exists (s :: cs). reflexivity.
Qed.

Lemma strings_encode (cs : list string) : forallb (validate String_) (map Str cs) = true.
Proof. induction cs; simpl; auto. Qed.

(** A map with at most the keys [a] and [b] is given by its values there. *)
Lemma two_keys (m m' : gmap string value) (a b : string) :
  (forall k, is_Some (m !! k) -> k ∈ [a; b]) ->
  (forall k, is_Some (m' !! k) -> k ∈ [a; b]) ->
  m !! a = m' !! a -> m !! b = m' !! b -> m = m'.
Proof.
  intros Hm Hm' Ha Hb. apply map_eq. intros k.
  destruct (decide (k = a)) as [->|Hka]; [exact Ha|].
  destruct (decide (k = b)) as [->|Hkb]; [exact Hb|].
  assert (Hout : k ∉ [a; b]).
  { intros Hin. apply elem_of_cons in Hin as [?|Hin]; [congruence|].
    apply elem_of_cons in Hin as [?|Hin]; [congruence|]. inversion Hin. }
  destruct (m !! k) eqn:H1; [exfalso; apply Hout, Hm; rewrite H1; eauto|].
  destruct (m' !! k) eqn:H2; [exfalso; apply Hout, Hm'; rewrite H2; eauto|].
  reflexivity.
Qed.

Lemma encoded_keys (a b : string) (x : value) (rest : option value) (k : string) :
  is_Some ((<[a := x]> (match rest with Some y => {[ b := y ]} | None => ∅ end)
            : gmap string value) !! k) ->
  k ∈ [a; b].
Proof.
  intros H. destruct (decide (k = a)) as [->|Hka]; [left|].
  rewrite lookup_insert_ne in H by congruence. right.
  destruct rest as [y|].
  - destruct (decide (k = b)) as [->|Hkb]; [left|].
    rewrite lookup_singleton_ne in H by congruence. destruct H as [? H]. discriminate.
  - rewrite lookup_empty in H. destruct H as [? H]. discriminate.
Qed.

Lemma encoded_second (a b : string) (x : value) (rest : option value) :
  a <> b ->
  (<[a := x]> (match rest with Some y => {[ b := y ]} | None => ∅ end)
   : gmap string value) !! b = rest.
Proof.
  intros Hab. rewrite lookup_insert_ne by exact Hab.
  destruct rest; [apply lookup_singleton_eq | apply lookup_empty].
Qed.

Lemma encodePackage_shape (p : string * option (list string)) :
  encodePackage p =
  Object (<["name" := Str p.1]>
            match (fun cats => Array (map Str cats)) <$> p.2 with
            | Some y => {[ "allowedCategories" := y ]}
            | None => ∅
            end).
Proof. destruct p as [n [cs|]]; reflexivity. Qed.

Lemma encodeFile_shape (uri : option string) (ps : list (string * option (list string))) :
  encodeFile uri ps =
  Object (<["packages" := Array (map encodePackage ps)]>
            match Str <$> uri with
            | Some y => {[ "$schema" := y ]}
            | None => ∅
            end).
Proof. destruct uri; reflexivity. Qed.

Lemma packageInfo_decode (v : value) :
  validate packageInfo v = true -> exists p, v = encodePackage p.
Proof.
  destruct v as [| | | |?|m]; try discriminate.
  intros H. apply object_valid in H as (Hp & Hr & Hd).
  destruct (Hr "name") as [x Hn]; [left|].
  pose proof (Hp "name" String_ x ltac:(left) Hn) as Hx.
  destruct x as [| | |n| |]; try discriminate.
  assert (exists cats, m !! "allowedCategories" = (fun cs => Array (map Str cs)) <$> cats)
    as [cats Hc].
  { destruct (m !! "allowedCategories") as [c|] eqn:Hc; [|exists None; reflexivity].
    pose proof (Hp "allowedCategories" (ArrayOf String_) c ltac:(right; left) Hc) as Hv.
    destruct c as [| | | |items|]; try discriminate.
    apply strings_decode in Hv as [cs ->]. exists (Some cs). reflexivity. }
  exists (n, cats). rewrite encodePackage_shape. f_equal.
  apply (two_keys _ _ "name" "allowedCategories").
  - exact Hd.
  - apply encoded_keys.
  - rewrite lookup_insert_eq. exact Hn.
  - rewrite encoded_second by discriminate. exact Hc.
Qed.

Lemma packageInfo_encode (p : string * option (list string)) :
  validate packageInfo (encodePackage p) = true.
Proof.
  rewrite encodePackage_shape. apply object_valid. split; [|split].
  - intros k s x Hin Hk.
    apply elem_of_cons in Hin as [Heq|Hin]; [|apply elem_of_cons in Hin as [Heq|Hin]];
      [inversion Heq; subst; clear Heq .. | inversion Hin].
    + rewrite lookup_insert_eq in Hk. inversion Hk. reflexivity.
    + rewrite encoded_second in Hk by discriminate.
      destruct p as [n [cs|]]; inversion Hk. apply strings_encode.
  - intros k Hin. apply elem_of_cons in Hin as [->|Hin]; [|inversion Hin].
    rewrite lookup_insert_eq. eauto.
  - apply encoded_keys.
Qed.

Lemma packages_decode (vs : list value) :
  forallb (validate packageInfo) vs = true -> exists ps, vs = map encodePackage ps.
Proof.
  induction vs as [|v vs IH]; intros H.
  - exists []. reflexivity.
  - change (validate packageInfo v && forallb (validate packageInfo) vs = true) in H.
    apply andb_prop in H as [Hv Hvs]. destruct (IH Hvs) as [ps ->].
    destruct (packageInfo_decode v Hv) as [p ->]. exists (p :: ps). reflexivity.
Qed.

Lemma packages_encode (ps : list (string * option (list string))) :
  forallb (validate packageInfo) (map encodePackage ps) = true.
Proof.
  induction ps as [|p ps IH]; [reflexivity|].
  change (validate packageInfo (encodePackage p)
          && forallb (validate packageInfo) (map encodePackage ps) = true).
  rewrite packageInfo_encode, IH. reflexivity.
Qed.

Lemma encodePackage_inj (p q : string * option (list string)) :
  encodePackage p = encodePackage q -> p = q.
Proof.
  rewrite !encodePackage_shape. intros H. inversion H as [Hm]. clear H.
  assert (Hn := f_equal (fun m : gmap string value => m !! "name") Hm).
  assert (Hc := f_equal (fun m : gmap string value => m !! "allowedCategories") Hm).
  cbn beta in Hn, Hc. rewrite !lookup_insert_eq in Hn.
  rewrite !encoded_second in Hc by discriminate.
  destruct p as [n cs], q as [n' cs']; cbn [fst snd] in *.
  inversion Hn; subst. f_equal.
  destruct cs as [cs|], cs' as [cs'|]; inversion Hc as [Hcs]; [|reflexivity].
  f_equal. clear - Hcs. revert cs' Hcs. induction cs as [|c cs IH]; intros [|c' cs'] Hcs;
    inversion Hcs; [reflexivity|]. f_equal. apply IH. assumption.
Qed.

Lemma encodeFile_inj (uri uri' : option string) (ps ps' : list (string * option (list string))) :
  encodeFile uri ps = encodeFile uri' ps' -> uri = uri' /\ ps = ps'.
Proof.
  rewrite !encodeFile_shape. intros H. inversion H as [Hm]. clear H.
  assert (Hp := f_equal (fun m : gmap string value => m !! "packages") Hm).
  assert (Hu := f_equal (fun m : gmap string value => m !! "$schema") Hm).
  cbn beta in Hp, Hu. rewrite !lookup_insert_eq in Hp.
  rewrite !encoded_second in Hu by discriminate.
  split.
  - destruct uri, uri'; inversion Hu; reflexivity.
  - inversion Hp as [Hps]. clear - Hps. revert ps' Hps.
    induction ps as [|p ps IH]; intros [|p' ps'] Hps; try discriminate; [reflexivity|].
    cbn [map] in Hps.
    assert (Hhead : encodePackage p = encodePackage p') by congruence.
    assert (Htail : map encodePackage ps = map encodePackage ps') by congruence.
    f_equal; [apply encodePackage_inj; exact Hhead | apply IH; exact Htail].
Qed.

(** X8.  A JSON value passes approved-packages.schema.json exactly when it is an
    object with a "packages" array, an optional "$schema" string and no
    other member, each package being an object with a "name" string, an
    optional "allowedCategories" array of strings and no other member; and
    such a value is read back in one way only. *)
Theorem schema_accepts_exactly_the_encodings (v : value) :
  (validate file v = true <-> exists schemaUri packages, v = encodeFile schemaUri packages)
  /\ (forall uri uri' ps ps',
        v = encodeFile uri ps -> v = encodeFile uri' ps' -> uri = uri' /\ ps = ps').
Proof.
  split; [|intros uri uri' ps ps' -> H; apply encodeFile_inj; exact H].
  split.
  - destruct v as [| | | |?|m]; try discriminate.
    intros H. apply object_valid in H as (Hp & Hr & Hd).
    destruct (Hr "packages") as [x Hx]; [left|].
    pose proof (Hp "packages" (ArrayOf packageInfo) x ltac:(right; left) Hx) as Hv.
    destruct x as [| | | |items|]; try discriminate.
    apply packages_decode in Hv as [ps ->].
    assert (exists uri, m !! "$schema" = Str <$> uri) as [uri Hu].
    { destruct (m !! "$schema") as [u|] eqn:Hu; [|exists None; reflexivity].
      pose proof (Hp "$schema" String_ u ltac:(left) Hu) as Hv.
      destruct u as [| | |uri| |]; try discriminate. exists (Some uri). reflexivity. }
    exists uri, ps. rewrite encodeFile_shape. f_equal.
    apply (two_keys _ _ "packages" "$schema").
    + intros k Hk. apply Hd in Hk.
      apply elem_of_cons in Hk as [->|Hk]; [right; left|].
      apply elem_of_cons in Hk as [->|Hk]; [left | inversion Hk].
    + apply encoded_keys.
    + rewrite lookup_insert_eq. exact Hx.
    + rewrite encoded_second by discriminate. exact Hu.
  - intros (uri & ps & ->). rewrite encodeFile_shape. apply object_valid.
    split; [|split].
    + intros k s x Hin Hk.
      apply elem_of_cons in Hin as [Heq|Hin]; [|apply elem_of_cons in Hin as [Heq|Hin]];
        [inversion Heq; subst; clear Heq .. | inversion Hin].
      * rewrite encoded_second in Hk by discriminate.
        destruct uri; inversion Hk. reflexivity.
      * rewrite lookup_insert_eq in Hk. inversion Hk. apply packages_encode.
    + intros k Hin. apply elem_of_cons in Hin as [->|Hin]; [|inversion Hin].
      rewrite lookup_insert_eq. eauto.
    + intros k Hk. apply encoded_keys in Hk.
      apply elem_of_cons in Hk as [->|Hk]; [right; left|].
      apply elem_of_cons in Hk as [->|Hk]; [left | inversion Hk].
Qed.
End SchemaFacts.

(** ** The further statements on the scenario *)

Section MoreOnTheScenario.

Import Scenario MoreScenarios.

Lemma generate_keeps_to_its_mode_witness :
  generate collaborators false committed = (Return tt, fullRun)
  /\ exists tr,
       trace fullRun = trace committed ++ tr
       /\ Forall (fun ev => modeEvent false ev = true) tr
       /\ (forall force, CreateSymlinksForProjects force ∈ tr ->
             false = false /\ force = true
             /\ exists w3, installPart posix parser collaborators false committed
                           = (Return tt, w3)).
Proof.
  assert (H : generate collaborators false committed = (Return tt, fullRun))
    by (vm_compute; reflexivity).
  split; [exact H|].
  exact (generate_keeps_to_its_mode posix parser collaborators false false
           committed fullRun (Return tt) H).
Defined.

Lemma generate_ends_as_the_link_step_does_witness :
  installPart posix parser rejecting false committed = (Return tt, settled rejecting)
  /\ GenerateAction.createSymlinksForProjects rejecting true (fs (settled rejecting))
     = (inr (Rejected linkError), fs (settled rejecting))
  /\ RushCommandLineParser.telemetry_flush parser (fs (settled rejecting))
     = (inr tt, fs (settled rejecting))
  /\ Node.caught (trace committed) = []
  /\ GenerateAction.onExecute posix parser rejecting false false committed
     = (Return tt,
        after (PromiseCatch (Rejected linkError)) (fs (settled rejecting))
          (closed posix (settled rejecting) (fs (settled rejecting))))
  /\ Node.runToEnd (RushCommandLineParser.onRejected posix parser)
       (RushCommandLineParser.onExecute posix parser
          (GenerateAction.onExecute posix parser rejecting false false)) committed
     = (1%Z,
        reported posix parser linkError
          (after TelemetryFlush (fs (settled rejecting))
             (after (PromiseCatch (Rejected linkError)) (fs (settled rejecting))
                (closed posix (settled rejecting) (fs (settled rejecting)))))).
Proof.
  assert (H : installPart posix parser rejecting false committed
              = (Return tt, settled rejecting)) by (vm_compute; reflexivity).
  assert (Hlink : GenerateAction.createSymlinksForProjects rejecting true
                    (fs (settled rejecting))
                  = (inr (Rejected linkError), fs (settled rejecting))) by reflexivity.
  assert (Hflush : RushCommandLineParser.telemetry_flush parser (fs (settled rejecting))
                   = (inr tt, fs (settled rejecting))) by reflexivity.
  assert (Hnone : Node.caught (trace committed) = []) by reflexivity.
  split; [exact H|]. split; [exact Hlink|]. split; [exact Hflush|].
  split; [exact Hnone|].
  destruct (generate_ends_as_the_link_step_does posix parser rejecting false
              committed (settled rejecting) H) as [Hrun Hend].
  split.
  - rewrite Hrun, Hlink. reflexivity.
  - exact (Hend linkError _ _ Hlink Hflush Hnone).
Defined.

Lemma failed_lock_generation_ends_the_run_witness :
  GenerateAction.prepare posix parser unlocked committed = (Return tt, prepared unlocked)
  /\ InstallManager.installCommonModules manager InstallType.ForceClean
       (fs (prepared unlocked)) = (inr tt, cleanInstalled unlocked)
  /\ GenerateAction.executeCommand unlocked (npmToolFilename config)
       (InstallManager.pushConfigurationNpmArgs manager ["shrinkwrap"])
       (commonTempFolder config) (cleanInstalled unlocked)
     = (inl shrinkwrapError, cleanInstalled unlocked)
  /\ exists w' line,
       GenerateAction.onExecute posix parser unlocked false false committed
         = (Throw shrinkwrapError, w')
       /\ fs w' = cleanInstalled unlocked
       /\ trace w' = trace (prepared unlocked) ++
            [InstallCommonModules InstallType.ForceClean; ConsoleLog line;
             ExecuteCommand (npmToolFilename config)
               (InstallManager.pushConfigurationNpmArgs manager ["shrinkwrap"])
               (commonTempFolder config)].
Proof.
  assert (H1 : GenerateAction.prepare posix parser unlocked committed
               = (Return tt, prepared unlocked)) by (vm_compute; reflexivity).
  assert (H2 : InstallManager.installCommonModules manager InstallType.ForceClean
                 (fs (prepared unlocked)) = (inr tt, cleanInstalled unlocked))
    by (vm_compute; reflexivity).
  assert (H3 : GenerateAction.executeCommand unlocked (npmToolFilename config)
                 (InstallManager.pushConfigurationNpmArgs manager ["shrinkwrap"])
                 (commonTempFolder config) (cleanInstalled unlocked)
               = (inl shrinkwrapError, cleanInstalled unlocked)) by reflexivity.
  split; [exact H1|]. split; [exact H2|]. split; [exact H3|].
  destruct (failed_lock_generation_ends_the_run posix parser unlocked false committed
              (prepared unlocked) (cleanInstalled unlocked) (cleanInstalled unlocked)
              shrinkwrapError H1 H2 H3) as (w' & line & Hrun & Hfs & Htr & _).
  exists w', line. split; [exact Hrun|]. split; [exact Hfs | exact Htr].
Defined.

Lemma committed_lock_mirrors_the_staging_lock_witness :
  Preserves lockPath (linked true)
  /\ marker <> lockPath
  /\ generate collaborators false committed = (Return tt, fullRun)
  /\ exists w1 fsA fsB,
       GenerateAction.prepare posix parser collaborators committed = (Return tt, w1)
       /\ InstallManager.installCommonModules manager InstallType.ForceClean (fs w1)
          = (inr tt, fsA)
       /\ npm (npmToolFilename config)
            (InstallManager.pushConfigurationNpmArgs manager ["shrinkwrap"])
            (commonTempFolder config) fsA = (inr tt, fsB)
       /\ match entries fsB !! tempShrinkwrapFilename config with
          | Some (File data _) =>
              exists t, entries (fs fullRun) !! lockPath = Some (File data t)
          | Some (Folder _) => False
          | None => entries (fs fullRun) !! lockPath = None
          end.
Proof.
  assert (P1 : Preserves lockPath (linked true)) by apply Preserves_linked.
  assert (N1 : marker <> lockPath) by discriminate.
  assert (H : generate collaborators false committed = (Return tt, fullRun))
    by (vm_compute; reflexivity).
  split; [exact P1|]. split; [exact N1|]. split; [exact H|].
  exact (committed_lock_mirrors_the_staging_lock posix parser collaborators false
           committed fullRun P1 N1 H).
Defined.

Lemma preparation_removes_the_lock_files_only_witness :
  GenerateAction.prepare posix parser collaborators committed
    = (Return tt, prepared collaborators)
  /\ exists fsA fsB fsC,
       GenerateAction.rewriteConfigFiles collaborators (fs committed) = (inr tt, fsA)
       /\ InstallManager.ensureLocalNpmTool manager false fsA = (inr tt, fsB)
       /\ InstallManager.createTempModules manager fsB = (inr tt, fsC)
       /\ entries (fs (prepared collaborators))
          = delete (tempShrinkwrapFilename config) (delete lockPath (entries fsC)).
Proof.
  assert (H : GenerateAction.prepare posix parser collaborators committed
              = (Return tt, prepared collaborators)) by (vm_compute; reflexivity).
  split; [exact H|].
  exact (preparation_removes_the_lock_files_only posix parser collaborators
           committed (prepared collaborators) H).
Defined.

Lemma onExecute_after_the_action_witness :
  generate collaborators true committed = (Return tt, lazyRun)
  /\ RushCommandLineParser.onExecute posix parser (generate collaborators true) committed
     = (Return tt, after TelemetryFlush (fs lazyRun) lazyRun).
Proof.
  assert (H : generate collaborators true committed = (Return tt, lazyRun))
    by (vm_compute; reflexivity).
  split; [exact H|].
  exact (proj1 (onExecute_after_the_action posix parser (generate collaborators true)
                  committed lazyRun) H).
Defined.

End MoreOnTheScenario.
